(** * PS3838 bet tracker: a shallow embedding of the resolution services

    The development follows the layout of the repository:

    - [Py]: the Python [str] operations the services use ([lower], [strip],
      [replace(' ', '')], [in], f-string formatting);
    - [TeamNormalization]: [services/team_normalization_service.py];
    - [Config]: [config.py];
    - [State]: the provider's JSON, the process state and the monad of the
      computations that change it;
    - [Ps3838]: [services/ps3838_service.py];
    - [Telegram]: [services/telegram_service.py];
    - [BetService]: [services/bet_service.py];
    - [MainLoop]: [main.py];
    - [Legacy]: the predicates of [data/old_code/ps3838.py] that the
      services replaced;
    - [Frames], [Notions], [Scenarios]: the relations, the notions and the
      concrete runs that the statements use;
    - [SportsMapping]: [load_sports_mapping] of [services/bet_service.py];
    - [Invariants], [Cases]: the invariants and preconditions of the services
      and of the loop, and more concrete runs.

    Strings are sequences of code points below 256, one [ascii] per code
    point; integers are [Z]; dictionaries with string keys are [gmap string];
    the set of processed bets is a [gset string]. *)

From Stdlib Require Import ZArith NArith Ascii String List Bool.
From stdpp Require Import gmap strings pretty list fin_maps.

Local Open Scope Z_scope.

(* ===================================================================== *)
(** * Python values and strings                                           *)
(* ===================================================================== *)

Module Py.

(** The JSON scalars that reach the services. *)
Inductive pyval :=
| PyNone
| PyInt (z : Z)
| PyStr (s : string).

(** Exceptions the embedded code can raise. *)
Inductive exn :=
| AttributeError
| TypeError.

(** The outcome of a call: a value, or an exception that propagates. *)
Inductive outcome (A : Type) :=
| Ret (a : A)
| Raise (e : exn).
Arguments Ret {A} a.
Arguments Raise {A} e.

Definition and_then {A B} (o : outcome A) (k : A → outcome B) : outcome B :=
  match o with
  | Ret a => k a
  | Raise e => Raise e
  end.

(** A [str] method called on a value: it raises unless the value is a [str]. *)
Definition as_str (v : pyval) : outcome string :=
  match v with
  | PyStr s => Ret s
  | _ => Raise AttributeError
  end.

(** [bool(v)]. *)
Definition truthy (v : pyval) : bool :=
  match v with
  | PyNone => false
  | PyInt z => negb (z =? 0)
  | PyStr s => negb (String.eqb s "")
  end.

(** [v is None]. *)
Definition is_none (v : pyval) : bool :=
  match v with
  | PyNone => true
  | _ => false
  end.

(** [f"{v}"]. *)
Definition format (v : pyval) : string :=
  match v with
  | PyNone => "None"
  | PyInt z => pretty z
  | PyStr s => s
  end.

Definition code (c : ascii) : N := N_of_ascii c.

Definition in_range (lo hi : N) (c : ascii) : bool :=
  ((lo <=? code c) && (code c <=? hi))%N.

(** [str.lower] on one code point: A-Z and the accented capitals
    U+00C0..U+00DE (without the multiplication sign U+00D7) move up by 32. *)
Definition lower_char (c : ascii) : ascii :=
  if in_range 65 90 c || (in_range 192 222 c && negb (code c =? 215)%N)
  then ascii_of_N (code c + 32)
  else c.

Fixpoint lower (s : string) : string :=
  match s with
  | EmptyString => EmptyString
  | String c s' => String (lower_char c) (lower s')
  end.

(** [str.upper] on one code point.  U+00DF becomes the two letters SS.  The
    upper case of U+00B5 and U+00FF lies above 255; they are kept, which no
    comparison against the ASCII constants of the program can observe. *)
Definition upper_char (c : ascii) : string :=
  if in_range 97 122 c || (in_range 224 254 c && negb (code c =? 247)%N)
  then String (ascii_of_N (code c - 32)) EmptyString
  else if (code c =? 223)%N then "SS"
  else String c EmptyString.

Fixpoint upper (s : string) : string :=
  match s with
  | EmptyString => EmptyString
  | String c s' => upper_char c +:+ upper s'
  end.

(** [str.isspace] on one code point. *)
Definition isspace (c : ascii) : bool :=
  in_range 9 13 c || in_range 28 32 c || (code c =? 133)%N || (code c =? 160)%N.

Fixpoint lstrip (s : string) : string :=
  match s with
  | EmptyString => EmptyString
  | String c s' => if isspace c then lstrip s' else s
  end.

Fixpoint rstrip (s : string) : string :=
  match s with
  | EmptyString => EmptyString
  | String c s' =>
      match rstrip s' with
      | EmptyString => if isspace c then EmptyString else String c EmptyString
      | r => String c r
      end
  end.

(** [s.strip()]. *)
Definition strip (s : string) : string := rstrip (lstrip s).

(** [s.replace(' ', '')]. *)
Fixpoint remove_spaces (s : string) : string :=
  match s with
  | EmptyString => EmptyString
  | String c s' =>
      if Ascii.eqb c " " then remove_spaces s' else String c (remove_spaces s')
  end.

(** [hay.startswith(needle)]. *)
Fixpoint startswith (hay needle : string) : bool :=
  match needle, hay with
  | EmptyString, _ => true
  | String _ _, EmptyString => false
  | String a n', String b h' => Ascii.eqb a b && startswith h' n'
  end.

(** [needle in hay]. *)
Fixpoint contains (needle hay : string) : bool :=
  startswith hay needle ||
  match hay with
  | EmptyString => false
  | String _ h' => contains needle h'
  end.

(** The group of [re.search(r'^([a-z]+)', s)]: the leading run of lower-case
    ASCII letters, which is a match when it is not empty. *)
Fixpoint leading_letters (s : string) : string :=
  match s with
  | EmptyString => EmptyString
  | String c s' => if in_range 97 122 c then String c (leading_letters s') else EmptyString
  end.

(** A code point written by its number, for the accented letters of the
    program's messages. *)
Definition chr (n : N) : string := String (ascii_of_N n) EmptyString.

End Py.
Export Py.

(* ===================================================================== *)
(** * services/team_normalization_service.py                              *)
(* ===================================================================== *)

Module TeamNormalization.

(** The alias tables of the module [teams], which the service imports. *)
Record teams := {
  nfl_teams : gmap string string;
  nba_teams : gmap string string;
  cfl_teams_dict : gmap string string;
  ncaa_football_teams : gmap string string;
  ncaa_basketball_teams : gmap string string;
  mlb_teams : gmap string string;
  wnba_teams : gmap string string;
  nhl_teams : gmap string string
}.

Section WithTeams.
Variable T : teams.

Definition get_team_dictionary (sport : pyval) : outcome (gmap string string) :=
  match sport with
  | PyStr s =>
      let sport := strip (lower s) in
      Ret (if String.eqb sport "nfl" then nfl_teams T
           else if String.eqb sport "nba" then nba_teams T
           else if String.eqb sport "cfl" then cfl_teams_dict T
           else if String.eqb sport "ncaaf" then ncaa_football_teams T
           else if String.eqb sport "ncaab" || String.eqb sport "ncaam"
                then ncaa_basketball_teams T
           else if String.eqb sport "mlb" then mlb_teams T
           else if String.eqb sport "wnba" then wnba_teams T
           else if String.eqb sport "nhl" then nhl_teams T
           else ∅)
  | _ => Raise AttributeError
  end.

Definition get_normalized_team (team_name league : pyval) : outcome string :=
  if negb (truthy team_name) then Ret ""
  else
    match get_team_dictionary league with
    | Raise e => Raise e
    | Ret dictionary =>
        match team_name with
        | PyStr t => Ret (default t (dictionary !! strip (lower t)))
        | _ => Raise AttributeError
        end
    end.

Definition extract_team_names_from_bet (the_bet : pyval) (league : pyval)
  : outcome (list string) :=
  match (if truthy the_bet then the_bet else PyStr "") with
  | PyStr b =>
      let the_bet := strip (lower b) in
      if String.eqb the_bet "" then Ret []
      else
        let extracted := leading_letters the_bet in
        if String.eqb extracted "" then Ret []
        else
          match get_normalized_team (PyStr extracted) league with
          | Raise e => Raise e
          | Ret normalized =>
              Ret [if String.eqb normalized "" then extracted else normalized]
          end
  | _ => Raise AttributeError
  end.

End WithTeams.

End TeamNormalization.
Export TeamNormalization.

(* ===================================================================== *)
(** * config.py                                                           *)
(* ===================================================================== *)

Module Config.

Definition GAME_IDS_CACHE_FILE : string := "data/game_ids_cache.json".
Definition SETTLED_LAST_FILE : string := "data/settled_last.json".

Definition LEAGUE_MAPPING : gmap string string := {[ "NCAAB" := "NCAA" ]}.

Definition NCAA_LEAGUES : list string :=
  ["NCAAB"; "NCAA BASKETBALL"; "NCAA"; "NCAA FOOTBALL"; "NCAAF"].

Definition API_BASE_URL : string := "https://api.ps3838.com/v3".
Definition FIXTURES_API_PATH : string := API_BASE_URL +:+ "/fixtures".
Definition SETTLED_API_PATH : string := API_BASE_URL +:+ "/fixtures/settled".

Definition MAIN_LOOP_SLEEP : Z := 60.
Definition MAX_CONSECUTIVE_ERRORS : Z := 5.

End Config.
Export Config.

(* ===================================================================== *)
(** * The provider's JSON, the process state and its effects              *)
(* ===================================================================== *)

Module State.

(** One period of a settled event. *)
Record period := {
  number : Z;
  team1Score : Z;
  team2Score : Z;
  settledAt : string
}.

Record settled_event := {
  se_id : Z;
  se_periods : list period
}.

Record settled_league := {
  sl_events : list settled_event
}.

Record fixture_event := {
  fe_id : Z;
  fe_home : string;
  fe_away : string;
  fe_rotNum : Z
}.

Record fixture_league := {
  fl_name : string;
  fl_id : Z;
  fl_events : list fixture_event
}.

(** A JSON object of the provider: [last] may be absent; [leagues] (settled
    endpoint) and [league] (fixtures endpoint) are empty when absent. *)
Record api_json := {
  j_last : option Z;
  j_leagues : list settled_league;
  j_league : list fixture_league
}.

(** What [requests.get] does: it raises a [RequestException], or returns a
    response with a status code, a reason phrase and a JSON object as body. *)
Inductive http_response :=
| RequestException (msg : string)
| Response (status_code : Z) (reason : string) (json : api_json).

(** A dictionary returned by the provider service: [{"error": msg}], the
    whole JSON object, or an event with its [id] and [periods]. *)
Inductive answer :=
| AError (msg : string)
| AData (data : api_json)
| AEvent (id : option Z) (periods : list period).

(** The [bet_info] dictionary built by [map_bet_info]. *)
Record bet_info := {
  bi_id : pyval;
  bi_sport : string;
  bi_league : string;
  bi_original_league : string;
  bi_visitor : string;
  bi_home : string;
  bi_bet_type : pyval;
  bi_the_bet : string;
  bi_line : pyval;
  bi_period : pyval
}.

(** The value of the key ["bet_info"] that [add_bet_info_to_result] adds. *)
Record bet_payload := {
  p_id : pyval;
  p_sport : string;
  p_league : string;
  p_bet_type : pyval;
  p_the_bet : string;
  p_line : pyval;
  p_period : pyval;
  p_visitor : string;
  p_home : string
}.

(** The result dictionary handed to the notification sink. *)
Record result := {
  r_body : answer;
  r_actual_home : option string;
  r_actual_away : option string;
  r_bet_info : option bet_payload
}.

Record sport_entry := { sp_name : string; sp_id : pyval }.
Record league_entry := { lg_name : string; lg_id : pyval }.

(** What the process reads but never writes: the alias tables, the sports
    file [data/sports_ps3838.json], the per-sport league files, the provider
    (its answer to the n-th request, by URL), whether Telegram accepts the
    n-th message, and the iteration order of [list(set(ids))]. *)
Record env := {
  tables : teams;
  sports_file : option (list sport_entry);
  league_file : string → option (list league_entry);
  provider : nat → string → http_response;
  telegram_ok : nat → bool;
  set_order : list Z → list Z
}.

(** What the process mutates: the two caches shared by every call, the set
    of processed bets, the two cache files, and the traces of its requests to
    the provider, of the payloads sent to Telegram and of its pauses. *)
Record world := {
  game_ids_cache : gmap string Z;
  last_values_cache : gmap string Z;
  processed_bets : gset string;
  game_ids_file : option (gmap string Z);
  settled_last_file : option (gmap string Z);
  http_log : list string;
  telegram_log : list result;
  sleep_log : list Z
}.

Definition set_game_ids_cache (c : gmap string Z) (w : world) : world :=
  {| game_ids_cache := c; last_values_cache := last_values_cache w;
     processed_bets := processed_bets w; game_ids_file := game_ids_file w;
     settled_last_file := settled_last_file w; http_log := http_log w;
     telegram_log := telegram_log w; sleep_log := sleep_log w |}.

Definition set_last_values_cache (c : gmap string Z) (w : world) : world :=
  {| game_ids_cache := game_ids_cache w; last_values_cache := c;
     processed_bets := processed_bets w; game_ids_file := game_ids_file w;
     settled_last_file := settled_last_file w; http_log := http_log w;
     telegram_log := telegram_log w; sleep_log := sleep_log w |}.

Definition set_processed_bets (s : gset string) (w : world) : world :=
  {| game_ids_cache := game_ids_cache w; last_values_cache := last_values_cache w;
     processed_bets := s; game_ids_file := game_ids_file w;
     settled_last_file := settled_last_file w; http_log := http_log w;
     telegram_log := telegram_log w; sleep_log := sleep_log w |}.

Definition set_game_ids_file (f : option (gmap string Z)) (w : world) : world :=
  {| game_ids_cache := game_ids_cache w; last_values_cache := last_values_cache w;
     processed_bets := processed_bets w; game_ids_file := f;
     settled_last_file := settled_last_file w; http_log := http_log w;
     telegram_log := telegram_log w; sleep_log := sleep_log w |}.

Definition set_settled_last_file (f : option (gmap string Z)) (w : world) : world :=
  {| game_ids_cache := game_ids_cache w; last_values_cache := last_values_cache w;
     processed_bets := processed_bets w; game_ids_file := game_ids_file w;
     settled_last_file := f; http_log := http_log w;
     telegram_log := telegram_log w; sleep_log := sleep_log w |}.

Definition set_http_log (l : list string) (w : world) : world :=
  {| game_ids_cache := game_ids_cache w; last_values_cache := last_values_cache w;
     processed_bets := processed_bets w; game_ids_file := game_ids_file w;
     settled_last_file := settled_last_file w; http_log := l;
     telegram_log := telegram_log w; sleep_log := sleep_log w |}.

Definition set_telegram_log (l : list result) (w : world) : world :=
  {| game_ids_cache := game_ids_cache w; last_values_cache := last_values_cache w;
     processed_bets := processed_bets w; game_ids_file := game_ids_file w;
     settled_last_file := settled_last_file w; http_log := http_log w;
     telegram_log := l; sleep_log := sleep_log w |}.

Definition set_sleep_log (l : list Z) (w : world) : world :=
  {| game_ids_cache := game_ids_cache w; last_values_cache := last_values_cache w;
     processed_bets := processed_bets w; game_ids_file := game_ids_file w;
     settled_last_file := settled_last_file w; http_log := http_log w;
     telegram_log := telegram_log w; sleep_log := l |}.

(** The state of a process that has just started with empty cache files. *)
Definition fresh : world :=
  {| game_ids_cache := ∅; last_values_cache := ∅; processed_bets := ∅;
     game_ids_file := None; settled_last_file := None;
     http_log := []; telegram_log := []; sleep_log := [] |}.

(** A computation: it runs on the process state and returns a value or
    raises; what it did to the state before raising stays done. *)
Definition M (A : Type) : Type := world → outcome A * world.

Definition ret {A} (a : A) : M A := λ w, (Ret a, w).

Definition raise {A} (e : exn) : M A := λ w, (Raise e, w).

Definition bind {A B} (m : M A) (k : A → M B) : M B :=
  λ w, match m w with
       | (Ret a, w') => k a w'
       | (Raise e, w') => (Raise e, w')
       end.

Definition lift {A} (o : outcome A) : M A := λ w, (o, w).

Definition get_world : M world := λ w, (Ret w, w).

Definition modify (f : world → world) : M unit := λ w, (Ret tt, f w).

End State.
Export State.

Notation "'let*' x := m 'in' k" := (bind m (λ x, k))
  (at level 10, x name, m at level 100, k at level 200).
Notation "m ;;; k" := (bind m (λ _, k))
  (at level 100, k at level 200, right associativity).

(* ===================================================================== *)
(** * services/ps3838_service.py                                          *)
(* ===================================================================== *)

Module Ps3838.

(** ["&".join(parts)]. *)
Fixpoint join (sep : string) (parts : list string) : string :=
  match parts with
  | [] => ""
  | [p] => p
  | p :: rest => p +:+ sep +:+ join sep rest
  end.

Definition build_api_url (base_path : string) (params : list (string * pyval)) : string :=
  let query_str :=
    join "&" (map (λ kv, fst kv +:+ "=" +:+ format (snd kv))
                  (List.filter (λ kv, negb (is_none (snd kv))) params)) in
  base_path +:+ "?" +:+ query_str.

(** [response.raise_for_status()] raises for the codes 400..599. *)
Definition raises_for_status (status_code : Z) : bool :=
  (400 <=? status_code) && (status_code <? 600).

(** The text of the [HTTPError] raised by [raise_for_status]. *)
Definition http_error_text (status_code : Z) (reason url : string) : string :=
  pretty status_code +:+
  (if status_code <? 500 then " Client Error: " else " Server Error: ") +:+
  reason +:+ " for url: " +:+ url.

(** [not game_id] for an optional identifier. *)
Definition no_game_id (game_id : option Z) : bool :=
  match game_id with
  | None => true
  | Some g => g =? 0
  end.

(** [for league in leagues: for event in events(league): if p(event): ...]
    leaving both loops at the first hit: the first event that satisfies [p],
    in the order of the response. *)
Fixpoint first_event {L Ev : Type} (events : L → list Ev) (p : Ev → bool)
    (leagues : list L) : option Ev :=
  match leagues with
  | [] => None
  | league :: rest =>
      match List.find p (events league) with
      | Some event => Some event
      | None => first_event events p rest
      end
  end.

Definition connection_error (msg : string) : answer :=
  AError ("Error de conexi" +:+ chr 243 +:+ "n: " +:+ msg).

Section WithEnv.
Variable E : env.

(** [requests.get(url, auth=auth, timeout=30)]: the request is recorded and
    the provider answers. *)
Definition requests_get (url : string) : M http_response :=
  λ w, (Ret (provider E (length (http_log w)) url),
        set_http_log (http_log w ++ [url]) w).

(** The cursors are integers, as the signature annotates
    ([Dict[str, int]]) and as [j_last] types the [last] of the provider: on
    an integer the validation of [since_value] raises nothing, and the value
    is then not used: the request always carries [since=0].  A cursor stored
    as a string, on which the test [since_value < 0] raises outside the
    handler, is outside this model. *)
Definition search_in_settled (sport_id : pyval) (league_ids : string)
    (game_id : option Z) : M answer :=
  let sport_key := format sport_id in
  let params := [("sportId", sport_id); ("leagueIds", PyStr league_ids);
                 ("since", PyInt 0)] in
  let url := build_api_url SETTLED_API_PATH params in
  let* response := requests_get url in
  match response with
  | RequestException msg => ret (connection_error msg)
  | Response status_code reason data =>
      if raises_for_status status_code
      then ret (connection_error (http_error_text status_code reason url))
      else
        match j_last data with
        | Some last =>
            modify (λ w, set_last_values_cache
                           (<[sport_key := last]> (last_values_cache w)) w) ;;;
            modify (λ w, set_settled_last_file (Some (last_values_cache w)) w)
        | None => ret tt
        end ;;;
        if no_game_id game_id then ret (AData data)
        else
          let gid := default 0 game_id in
          match first_event sl_events (λ event, se_id event =? gid)
                            (j_leagues data) with
          | Some event => ret (AEvent (Some (se_id event)) (se_periods event))
          | None =>
              ret (AError ("Partido con ID " +:+ pretty gid +:+
                           " no encontrado en settled."))
          end
  end.

(** A response carries a JSON object, so the branches for an empty or an
    unparsable body are not reached; [sport_id <= 0] raises on a string. *)
Definition get_fixtures (sport_id : pyval) (league_ids : string) : M answer :=
  let* invalid :=
    match sport_id with
    | PyNone => ret true
    | PyInt z => ret ((z =? 0) || (z <=? 0))
    | PyStr s => if String.eqb s "" then ret true else raise TypeError
    end in
  if invalid : bool then ret (AError ("sport_id inv" +:+ chr 225 +:+ "lido"))
  else if String.eqb league_ids ""
  then ret (AError ("league_ids est" +:+ chr 225 +:+ " vac" +:+ chr 237 +:+ "o"))
  else
    let params := [("sportId", sport_id); ("leagueIds", PyStr league_ids);
                   ("isLive", PyInt 1); ("since", PyInt 0)] in
    let url := build_api_url FIXTURES_API_PATH params in
    let* response := requests_get url in
    match response with
    | RequestException msg => ret (connection_error msg)
    | Response status_code reason data =>
        if negb (status_code =? 200)
        then ret (AError ("Error HTTP " +:+ pretty status_code))
        else ret (AData data)
    end.

Definition get_settled_fixtures (sport_id : pyval) (league_ids : string) : M answer :=
  let params := [("sportId", sport_id); ("leagueIds", PyStr league_ids);
                 ("since", PyInt 0)] in
  let url := build_api_url SETTLED_API_PATH params in
  let* response := requests_get url in
  match response with
  | RequestException msg =>
      ret (AError ("Conexi" +:+ chr 243 +:+ "n fallida: " +:+ msg))
  | Response status_code reason data =>
      if negb (status_code =? 200)
      then ret (AError ("HTTP " +:+ pretty status_code))
      else ret (AData data)
  end.

End WithEnv.

End Ps3838.
Export Ps3838.

(* ===================================================================== *)
(** * services/telegram_service.py                                        *)
(* ===================================================================== *)

Module Telegram.

Section WithEnv.
Variable E : env.

(** The payload is posted to the chat; a failed post is logged and reported
    by the returned flag, never raised. *)
Definition send_telegram_message (data : result) : M bool :=
  λ w, (Ret (telegram_ok E (length (telegram_log w))),
        set_telegram_log (telegram_log w ++ [data]) w).

End WithEnv.

End Telegram.
Export Telegram.

(* ===================================================================== *)
(** * services/bet_service.py                                             *)
(* ===================================================================== *)

Module BetService.

(** A bet record of [data/bets_today.json].  A key read with a default is
    [None] when absent; a key read without one is [PyNone] when absent. *)
Record bet_record := {
  br_id : pyval;
  br_sport : option pyval;
  br_league : option pyval;
  br_visitor : pyval;
  br_home : pyval;
  br_bet_type : pyval;
  br_the_bet : pyval;
  br_line : pyval;
  br_period : option pyval
}.

(** An element of the bets file: a dictionary, or any other JSON value. *)
Inductive bet_json :=
| BetDict (r : bet_record)
| BetOther (v : pyval).

(** [v or ""]. *)
Definition or_empty (v : pyval) : pyval := if truthy v then v else PyStr "".

Definition error_result (msg : string) : result :=
  {| r_body := AError msg; r_actual_home := None; r_actual_away := None;
     r_bet_info := None |}.

(** ["error" in result]. *)
Definition has_error (r : result) : bool :=
  match r_body r with
  | AError _ => true
  | _ => false
  end.

(** [f"{t1}_{t2}".replace(' ', '')]. *)
Definition cache_key (t1 t2 : string) : string := remove_spaces (t1 +:+ "_" +:+ t2).

(** [f"{a.replace(' ','')}_{b.replace(' ','')}"]. *)
Definition api_key (a b : string) : string :=
  remove_spaces a +:+ "_" +:+ remove_spaces b.

(** [any(t in api or api in t for t in team_names)]. *)
Definition any_overlap (team_names : list string) (api : string) : bool :=
  existsb (λ t, contains t api || contains api t) team_names.

(** The condition under which the fixture loop takes an event. *)
Definition fixture_matches (team_names : list string) (event : fixture_event) : bool :=
  let api_home := lower (fe_home event) in
  let api_away := lower (fe_away event) in
  any_overlap team_names api_home || any_overlap team_names api_away.

(** The cached identifiers read by the two loops over [team_names]. *)
Definition cached_pair_ids (cache : gmap string Z) (team_names : list string) : list Z :=
  flat_map (λ t1,
    flat_map (λ t2,
      if String.eqb t1 t2 then []
      else option_list (cache !! cache_key t1 t2)) team_names) team_names.

Definition enrich_result_with_team_names (result0 : result) (game_id : Z)
    (fixtures_data : api_json) : result :=
  match first_event fl_events (λ event, fe_id event =? game_id)
                    (j_league fixtures_data) with
  | Some event =>
      {| r_body := r_body result0;
         r_actual_home := Some (fe_home event);
         r_actual_away := Some (fe_away event);
         r_bet_info := r_bet_info result0 |}
  | None => result0
  end.

Definition add_bet_info_to_result (result0 : result) (bet : bet_info) : result :=
  let final_visitor := default (bi_visitor bet) (r_actual_away result0) in
  let final_home := default (bi_home bet) (r_actual_home result0) in
  {| r_body := r_body result0;
     r_actual_home := r_actual_home result0;
     r_actual_away := r_actual_away result0;
     r_bet_info := Some
       {| p_id := bi_id bet; p_sport := bi_sport bet;
          p_league := bi_original_league bet; p_bet_type := bi_bet_type bet;
          p_the_bet := bi_the_bet bet; p_line := bi_line bet;
          p_period := bi_period bet;
          p_visitor := final_visitor; p_home := final_home |} |}.

(** The key of a bet in [processed_bets]. *)
Definition processed_key (bet : bet_info) : string :=
  format (bi_id bet) +:+ "_" +:+ bi_visitor bet +:+ "_" +:+ bi_home bet.

Definition empty_fixtures : api_json :=
  {| j_last := None; j_leagues := []; j_league := [] |}.

Section WithEnv.
Variable E : env.

Definition map_bet_info (bet_record0 : bet_json) : option bet_info :=
  match bet_record0 with
  | BetOther _ => None
  | BetDict r =>
      let mapped :=
        and_then (as_str (default (PyStr "Basketball") (br_sport r))) (λ sport0,
        let sport := strip sport0 in
        and_then (as_str (default (PyStr "NBA") (br_league r))) (λ league0,
        let league := strip league0 in
        let normalized_league := default league (LEAGUE_MAPPING !! upper league) in
        and_then (as_str (or_empty (br_visitor r))) (λ visitor0,
        let visitor := lower (strip visitor0) in
        and_then (as_str (or_empty (br_home r))) (λ home0,
        let home := lower (strip home0) in
        and_then (as_str (or_empty (br_the_bet r))) (λ the_bet0,
        let the_bet := lower the_bet0 in
        and_then (get_normalized_team (tables E) (PyStr visitor) (PyStr league))
          (λ normalized_visitor,
        and_then (get_normalized_team (tables E) (PyStr home) (PyStr league))
          (λ normalized_home,
        Ret {| bi_id := br_id r; bi_sport := sport; bi_league := normalized_league;
               bi_original_league := league; bi_visitor := normalized_visitor;
               bi_home := normalized_home; bi_bet_type := br_bet_type r;
               bi_the_bet := the_bet; bi_line := br_line r;
               bi_period := default (PyStr "") (br_period r) |}))))))) in
      match mapped with
      | Ret bet => Some bet
      | Raise _ => None
      end
  end.

(** A missing or unreadable sports file makes the body raise; the handler
    returns 0. *)
Definition get_sport_id (sport_name : string) : pyval :=
  match sports_file E with
  | None => PyInt 0
  | Some sports =>
      match List.find (λ sport, String.eqb (sp_name sport) sport_name) sports with
      | Some sport => sp_id sport
      | None => PyInt 0
      end
  end.

Definition get_league_ids (sport_name league_name : string) : string :=
  let sport_file := "data/" +:+ lower sport_name +:+ ".json" in
  match league_file E sport_file with
  | None => ""
  | Some leagues =>
      match List.find (λ league, String.eqb (lg_name league) league_name) leagues with
      | Some league => format (lg_id league)
      | None => ""
      end
  end.

(** Step 4 of [get_game_data]: the loop over the cached identifiers.  It
    returns the enriched result of the first identifier whose search has no
    ["error"]; after a failed search it requests the settled fixtures, whose
    names it writes into the failed result, which the next turn discards. *)
Fixpoint search_cached_ids (sport_id : pyval) (league_ids_param : string)
    (fixtures_data : api_json) (unique_game_ids : list Z) : M (option result) :=
  match unique_game_ids with
  | [] => ret None
  | gid :: rest =>
      let* settled_result := search_in_settled E sport_id league_ids_param (Some gid) in
      match settled_result with
      | AError _ =>
          let* settled_fixtures := get_settled_fixtures E sport_id league_ids_param in
          search_cached_ids sport_id league_ids_param fixtures_data rest
      | AData _ =>
          ret (Some (enrich_result_with_team_names
                       {| r_body := AEvent None []; r_actual_home := None;
                          r_actual_away := None; r_bet_info := None |}
                       gid fixtures_data))
      | AEvent id periods =>
          ret (Some (enrich_result_with_team_names
                       {| r_body := AEvent id periods; r_actual_home := None;
                          r_actual_away := None; r_bet_info := None |}
                       gid fixtures_data))
      end
  end.

Definition get_game_data (bet : bet_info) : M result :=
  let visitor := bi_visitor bet in
  let home := bi_home bet in
  let the_bet := bi_the_bet bet in
  let league := bi_league bet in
  let team_names := List.filter (λ t, negb (String.eqb t "")) [visitor; home] in
  let* team_names :=
    match team_names with
    | [] => lift (extract_team_names_from_bet (tables E) (PyStr the_bet) (PyStr league))
    | _ => ret team_names
    end in
  match team_names with
  | [] => ret (error_result "No hay equipos para buscar el partido.")
  | _ =>
      let sport_id := get_sport_id (bi_sport bet) in
      let league_ids_param :=
        let ids := get_league_ids (bi_sport bet) league in
        if String.eqb ids "" then "493" else ids in
      let bet_id_key := "bet_" +:+ format (bi_id bet) in
      let* w := get_world in
      let possible_game_ids :=
        option_list (game_ids_cache w !! bet_id_key) ++
        cached_pair_ids (game_ids_cache w) team_names in
      let unique_game_ids := set_order E possible_game_ids in
      let* fixtures_answer := get_fixtures E sport_id league_ids_param in
      let fixtures_data :=
        match fixtures_answer with
        | AData data => data
        | _ => empty_fixtures
        end in
      let* cached :=
        search_cached_ids sport_id league_ids_param fixtures_data unique_game_ids in
      match cached with
      | Some enriched => ret enriched
      | None =>
          match first_event fl_events (fixture_matches team_names)
                            (j_league fixtures_data) with
          | Some event =>
              let api_home := lower (fe_home event) in
              let api_away := lower (fe_away event) in
              let gid := fe_id event in
              modify (λ w, set_game_ids_cache
                (<[bet_id_key := gid]>
                   (<[api_key api_home api_away := gid]>
                      (<[api_key api_away api_home := gid]> (game_ids_cache w)))) w) ;;;
              modify (λ w, set_game_ids_file (Some (game_ids_cache w)) w) ;;;
              let* settled_result :=
                search_in_settled E sport_id league_ids_param (Some gid) in
              ret {| r_body := settled_result;
                     r_actual_home := Some (fe_home event);
                     r_actual_away := Some (fe_away event);
                     r_bet_info := None |}
          | None =>
              ret (error_result ("Partido no encontrado en fixtures ni en la cach"
                                 +:+ chr 233 +:+ "."))
          end
      end
  end.

Definition process_bet (bet : bet_info) : M unit :=
  let bet_id_key := processed_key bet in
  let* w := get_world in
  if bool_decide (bet_id_key ∈ processed_bets w) then ret tt
  else
    let* result0 := get_game_data bet in
    match r_body result0 with
    | AError msg =>
        if contains "not found in settled yet" (lower msg) then ret tt
        else send_telegram_message E result0 ;;; ret tt
    | _ =>
        let enriched_result := add_bet_info_to_result result0 bet in
        send_telegram_message E enriched_result ;;;
        modify (λ w, set_processed_bets ({[ bet_id_key ]} ∪ processed_bets w) w)
    end.

End WithEnv.

End BetService.
Export BetService.

(* ===================================================================== *)
(** * main.py                                                             *)
(* ===================================================================== *)

Module MainLoop.

(** What [load_json_file(JSON_INPUT_FILE)] returns: [None] for a missing or
    unreadable file, a list of elements, or a JSON number. *)
Inductive bets_json :=
| BetsNone
| BetsList (records : list bet_json)
| BetsNumber (z : Z).

(** What happens to one turn of [while True]: the bets file is read, or the
    user interrupts the process while it is, inside the [try].  An interrupt
    during the pause after a turn, which no handler catches, is not a turn
    of this model: a run is a sequence of whole turns. *)
Inductive cycle_input :=
| Poll (bets_data : bets_json)
| Interrupt.

(** The process after a turn: still looping, with its count of consecutive
    errors, or gone through [sys.exit(code)]. *)
Inductive status :=
| Running (consecutive_errors : Z)
| Exited (code : Z).

Definition save_caches : M unit :=
  modify (λ w, set_game_ids_file (Some (game_ids_cache w)) w) ;;;
  modify (λ w, set_settled_last_file (Some (last_values_cache w)) w).

Definition sleep (seconds : Z) : M unit :=
  modify (λ w, set_sleep_log (sleep_log w ++ [seconds]) w).

Section WithEnv.
Variable E : env.

(** [for bet_record in bets_data: ...]. *)
Fixpoint process_records (records : list bet_json) : M unit :=
  match records with
  | [] => ret tt
  | bet_record0 :: rest =>
      match map_bet_info E bet_record0 with
      | Some bet => process_bet E bet
      | None => ret tt
      end ;;;
      process_records rest
  end.

(** The body of the [try]: [len(bets_data)] raises on a number. *)
Definition cycle_body (bets_data : bets_json) : M unit :=
  match bets_data with
  | BetsNone => ret tt
  | BetsList [] => ret tt
  | BetsList records => process_records records
  | BetsNumber z => if z =? 0 then ret tt else raise TypeError
  end ;;;
  save_caches.

(** One turn of the loop of [main], from its [try] to the final sleep. *)
Definition iteration (input : cycle_input) (consecutive_errors : Z)
  : world → status * world :=
  λ w,
    match input with
    | Interrupt => (Exited 0, snd (save_caches w))
    | Poll bets_data =>
        match cycle_body bets_data w with
        | (Ret _, w1) => (Running 0, snd (sleep MAIN_LOOP_SLEEP w1))
        | (Raise _, w1) =>
            let consecutive_errors := consecutive_errors + 1 in
            if MAX_CONSECUTIVE_ERRORS <=? consecutive_errors
            then (Exited 1, snd ((save_caches ;;; sleep 5) w1))
            else (Running consecutive_errors, snd (sleep MAIN_LOOP_SLEEP w1))
        end
    end.

(** The loop over a finite sequence of turns; nothing runs after an exit. *)
Fixpoint run (inputs : list cycle_input) (st : status) (w : world) : status * world :=
  match inputs, st with
  | [], _ => (st, w)
  | _, Exited _ => (st, w)
  | input :: rest, Running consecutive_errors =>
      let '(st', w') := iteration input consecutive_errors w in
      run rest st' w'
  end.

(** [main] after its set-up: the caches are those of the files, or empty. *)
Definition main (disk : world) (inputs : list cycle_input) : status * world :=
  let w := set_last_values_cache (default ∅ (settled_last_file disk))
             (set_game_ids_cache (default ∅ (game_ids_file disk))
                (set_processed_bets ∅ disk)) in
  run inputs (Running 0) w.

End WithEnv.

End MainLoop.
Export MainLoop.

(* ===================================================================== *)
(** * data/old_code/ps3838.py: the predicates the services replaced       *)
(* ===================================================================== *)

Module Legacy.

(** [x in NCAA_LEAGUES]. *)
Definition in_ncaa_leagues (x : string) : bool :=
  existsb (String.eqb x) NCAA_LEAGUES.

(** [league_info] is the provider's league; only its [name] is read. *)
Definition is_matching_league (league_info : fixture_league) (search_league : string)
  : bool :=
  let api_league_name := upper (fl_name league_info) in
  let ncaa_case := in_ncaa_leagues (upper search_league) in
  if ncaa_case then
    if contains "WNCAA" api_league_name || contains "WOMEN" api_league_name
    then false
    else if contains "NCAA" api_league_name then true
    else if contains "COLLEGE" api_league_name && contains "BASKETBALL" api_league_name
    then true
    else false
  else
    String.eqb (upper search_league) api_league_name ||
    String.eqb search_league (fl_name league_info).

(** The league filter of [find_game_by_team_names]: the events it looks at
    are those of the leagues that [is_matching_league] lets through. *)
Definition candidate_events (fixtures_data : api_json) (league : string)
  : list fixture_event :=
  flat_map (λ league_info,
    if is_matching_league league_info league then fl_events league_info else [])
    (j_league fixtures_data).

(** [save_game_id_mappings] on the dictionary [last_game_ids]. *)
Definition save_game_id_mappings (game_id : Z) (api_home api_away : string)
    (team_names : list string) (bet_id : pyval) (last_game_ids : gmap string Z)
  : gmap string Z :=
  let api_home_lower := remove_spaces api_home in
  let api_away_lower := remove_spaces api_away in
  let team_key1 := lower (api_away_lower +:+ "_" +:+ api_home_lower) in
  let team_key2 := lower (api_home_lower +:+ "_" +:+ api_away_lower) in
  let ids := <[team_key2 := game_id]> (<[team_key1 := game_id]> last_game_ids) in
  let ids :=
    if truthy bet_id then <["bet_" +:+ format bet_id := game_id]> ids else ids in
  fold_left (λ ids team1,
    fold_left (λ ids team2,
      if String.eqb team1 team2 then ids
      else <[remove_spaces (lower (team1 +:+ "_" +:+ team2)) := game_id]> ids)
      team_names ids)
    team_names ids.

(** The errors [handle_error_result] keeps away from Telegram. *)
Definition ignore_errors : list string :=
  ["not found in settled yet"; "No match found for teams";
   "found in settled but has no periods yet"].

Definition should_ignore (error_message : string) : bool :=
  existsb (λ ignore_text, contains ignore_text error_message) ignore_errors.

(** What the loop of [search_in_settled] answers for an event whose [id] is
    [game_id]: an event without periods is an error. *)
Definition settled_event_answer (game_id : Z) (event_result : settled_event) : answer :=
  match se_periods event_result with
  | [] => AError ("Match with ID '" +:+ pretty game_id +:+
                  "' found in settled but has no periods yet.")
  | periods => AEvent (Some (se_id event_result)) periods
  end.

End Legacy.

(* ===================================================================== *)
(** * Notions used by the statements                                      *)
(* ===================================================================== *)

Module Frames.

(** Every run of [m] takes a state to an [R]-related state, whether it
    returns or raises. *)
Definition respects {A} (R : relation world) (m : M A) : Prop :=
  ∀ w, R w (m w).2.

(** The writes a relation may have to tolerate, one class per kind. *)
Class HttpFrame (R : relation world) : Prop :=
  http_frame : ∀ l w, R w (set_http_log l w).

Class CursorFrame (R : relation world) : Prop := {
  cursor_frame : ∀ k v w,
    R w (set_last_values_cache (<[k:=v]> (last_values_cache w)) w);
  cursor_file_frame : ∀ f w, R w (set_settled_last_file f w)
}.

Class CacheFrame (R : relation world) : Prop := {
  cache_frame : ∀ c w, R w (set_game_ids_cache c w);
  cache_file_frame : ∀ f w, R w (set_game_ids_file f w)
}.

Class TelegramFrame (R : relation world) : Prop :=
  telegram_frame : ∀ l w, R w (set_telegram_log l w).

Class GuardFrame (R : relation world) : Prop :=
  guard_frame : ∀ k w, R w (set_processed_bets ({[ k ]} ∪ processed_bets w) w).

Class SleepFrame (R : relation world) : Prop :=
  sleep_frame : ∀ l w, R w (set_sleep_log l w).

(** The component [f] of the state is left as it was. *)
Definition same {X} (f : world → X) : relation world := λ w w', f w' = f w.

(** No sport loses its cursor. *)
Definition cursors_kept : relation world :=
  λ w w', dom (last_values_cache w) ⊆ dom (last_values_cache w').

(** No bet leaves the set of processed bets. *)
Definition guard_grows : relation world :=
  λ w w', processed_bets w ⊆ processed_bets w'.

End Frames.
Import Frames.

Module Notions.

(** [c in s] for one code point. *)
Fixpoint occurs (c : ascii) (s : string) : bool :=
  match s with
  | EmptyString => false
  | String a s' => Ascii.eqb c a || occurs c s'
  end.

(** The text of the ["error"] that [search_in_settled] returns for an
    identifier absent from the settled results. *)
Definition not_in_settled (game_id : Z) : string :=
  "Partido con ID " +:+ pretty game_id +:+ " no encontrado en settled.".

(** The URL that [search_in_settled] requests. *)
Definition settled_url (sport_id : pyval) (league_ids : string) : string :=
  build_api_url SETTLED_API_PATH
    [("sportId", sport_id); ("leagueIds", PyStr league_ids); ("since", PyInt 0)].

(** The cache after the fixture loop of [get_game_data] has taken [event]
    for [bet]. *)
Definition stored (bet : bet_info) (event : fixture_event) (cache : gmap string Z)
  : gmap string Z :=
  <["bet_" +:+ format (bi_id bet) := fe_id event]>
    (<[api_key (lower (fe_home event)) (lower (fe_away event)) := fe_id event]>
       (<[api_key (lower (fe_away event)) (lower (fe_home event)) := fe_id event]>
          cache)).

(** [event] is in a [league] list that the provider sends. *)
Definition offered (E : env) (event : fixture_event) : Prop :=
  ∃ n url status_code reason data league,
    provider E n url = Response status_code reason data ∧
    In league (j_league data) ∧ In event (fl_events league).

End Notions.
Import Notions.

(* ===================================================================== *)
(** * Concrete runs                                                       *)
(* ===================================================================== *)

Module Scenarios.

Definition no_teams : teams :=
  {| nfl_teams := ∅; nba_teams := ∅; cfl_teams_dict := ∅;
     ncaa_football_teams := ∅; ncaa_basketball_teams := ∅;
     mlb_teams := ∅; wnba_teams := ∅; nhl_teams := ∅ |}.

Definition demo_teams : teams :=
  {| nfl_teams := ∅;
     nba_teams := {[ "lakers" := "Los Angeles Lakers";
                     "warriors" := "Golden State Warriors" ]};
     cfl_teams_dict := ∅; ncaa_football_teams := ∅; ncaa_basketball_teams := ∅;
     mlb_teams := ∅; wnba_teams := ∅; nhl_teams := ∅ |}.

(** An environment whose sports file knows Basketball as sport 4, that has
    no league file, and whose provider answers the fixtures endpoint with
    [fixtures] and the settled endpoint with [settled], both with status 200. *)
Definition env_of (T : teams) (fixtures settled : api_json) : env :=
  {| tables := T;
     sports_file := Some [ {| sp_name := "Basketball"; sp_id := PyInt 4 |} ];
     league_file := λ _, None;
     provider := λ _ url,
       Response 200 "OK"
         (if contains "/fixtures/settled?" url then settled else fixtures);
     telegram_ok := λ _, true;
     set_order := remove_dups |}.

Definition lakers_warriors : fixture_event :=
  {| fe_id := 501; fe_home := "Los Angeles Lakers";
     fe_away := "Golden State Warriors"; fe_rotNum := 101 |}.

Definition nba_fixtures : api_json :=
  {| j_last := None; j_leagues := [];
     j_league := [ {| fl_name := "NBA"; fl_id := 487;
                      fl_events := [lakers_warriors] |} ] |}.

Definition other_fixtures : api_json :=
  {| j_last := None; j_leagues := [];
     j_league := [ {| fl_name := "NBA"; fl_id := 487;
                      fl_events := [ {| fe_id := 502; fe_home := "Boston Celtics";
                                        fe_away := "Miami Heat";
                                        fe_rotNum := 103 |} ] |} ] |}.

Definition womens_fixtures : api_json :=
  {| j_last := None; j_leagues := [];
     j_league := [ {| fl_name := "NCAA Women"; fl_id := 600;
                      fl_events := [ {| fe_id := 900; fe_home := "Duke";
                                        fe_away := "North Carolina";
                                        fe_rotNum := 301 |} ] |} ] |}.

(** A settled response with one league. *)
Definition settled_of (last : option Z) (events : list settled_event) : api_json :=
  {| j_last := last; j_leagues := [ {| sl_events := events |} ]; j_league := [] |}.

Definition final_period : period :=
  {| number := 0; team1Score := 110; team2Score := 115;
     settledAt := "2025-03-01T04:00:00Z" |}.

Definition settled_without_periods : api_json :=
  settled_of (Some 7) [ {| se_id := 501; se_periods := [] |} ].

Definition bet_1_record : bet_record :=
  {| br_id := PyInt 1; br_sport := Some (PyStr "Basketball");
     br_league := Some (PyStr "NBA"); br_visitor := PyStr "warriors";
     br_home := PyStr "lakers"; br_bet_type := PyNone; br_the_bet := PyNone;
     br_line := PyNone; br_period := None |}.

(** What [map_bet_info] makes of [bet_1_record] when no table knows the
    two names. *)
Definition bet_1 : bet_info :=
  {| bi_id := PyInt 1; bi_sport := "Basketball"; bi_league := "NBA";
     bi_original_league := "NBA"; bi_visitor := "warriors"; bi_home := "lakers";
     bi_bet_type := PyNone; bi_the_bet := ""; bi_line := PyNone;
     bi_period := PyStr "" |}.

Definition ncaa_bet : bet_info :=
  {| bi_id := PyInt 3; bi_sport := "Basketball"; bi_league := "NCAA";
     bi_original_league := "NCAAB"; bi_visitor := "north carolina";
     bi_home := "duke"; bi_bet_type := PyNone; bi_the_bet := "";
     bi_line := PyNone; bi_period := PyStr "" |}.

(** The event 501 settled with its final period. *)
Definition settled_env : env :=
  env_of no_teams nba_fixtures
    (settled_of (Some 7) [ {| se_id := 501; se_periods := [final_period] |} ]).

Definition settled_result : result :=
  {| r_body := AEvent (Some 501) [final_period];
     r_actual_home := Some "Los Angeles Lakers";
     r_actual_away := Some "Golden State Warriors";
     r_bet_info := None |}.

(** A state whose cursor for sport 4 is 100, and a provider whose settled
    response carries the cursor 50. *)
Definition cursor_at_100 : world :=
  set_last_values_cache {[ "4" := 100 ]} fresh.

Definition earlier_cursor_env : env :=
  env_of no_teams nba_fixtures (settled_of (Some 50) []).

(** A bets file that holds the number 5 instead of a list. *)
Definition broken_bets : cycle_input := Poll (BetsNumber 5).

End Scenarios.
Import Scenarios.

(* ===================================================================== *)
(** * services/bet_service.py: the sports mapping                         *)
(* ===================================================================== *)

Module SportsMapping.

Definition DEFAULT_SPORTS_MAPPING : gmap string pyval := {[ "Basketball" := PyInt 4 ]}.

(** The body of the loop of [load_sports_mapping]: the sport is entered
    under its name, then under its lower-cased name. *)
Definition add_sport (sports_mapping : gmap string pyval) (sport : sport_entry)
  : gmap string pyval :=
  <[lower (sp_name sport) := sp_id sport]>
    (<[sp_name sport := sp_id sport]> sports_mapping).

(** [SPORTS_JSON_FILE] is the file that [get_sport_id] reads.  A missing
    file, or one without sports, gives the default mapping. *)
Definition load_sports_mapping (E : env) : gmap string pyval :=
  match sports_file E with
  | None => DEFAULT_SPORTS_MAPPING
  | Some sports =>
      let sports_mapping := fold_left add_sport sports ∅ in
      if bool_decide (sports_mapping = ∅) then DEFAULT_SPORTS_MAPPING
      else sports_mapping
  end.

End SportsMapping.
Export SportsMapping.

(* ===================================================================== *)
(** * Invariants and preconditions of the services and of the loop        *)
(* ===================================================================== *)

Module Invariants.

(** The URL that [get_fixtures] requests. *)
Definition fixtures_url (sport_id : pyval) (league_ids : string) : string :=
  build_api_url FIXTURES_API_PATH
    [("sportId", sport_id); ("leagueIds", PyStr league_ids);
     ("isLive", PyInt 1); ("since", PyInt 0)].

(** [league_ids_param] of [get_game_data]: the identifiers of the league of
    the bet, or 493 when there are none. *)
Definition league_ids_param (E : env) (bet : bet_info) : string :=
  let ids := get_league_ids E (bi_sport bet) (bi_league bet) in
  if String.eqb ids "" then "493" else ids.

(** The team names that [get_game_data] takes from the bet itself: its
    visitor and its home, when not empty. *)
Definition bet_team_names (bet : bet_info) : list string :=
  List.filter (λ t, negb (String.eqb t "")) [bi_visitor bet; bi_home bet].

(** Both cache files hold what the caches hold; a missing file stands for
    the empty cache, as [main] reads it. *)
Definition durable (w : world) : Prop :=
  default ∅ (game_ids_file w) = game_ids_cache w ∧
  default ∅ (settled_last_file w) = last_values_cache w.

(** A property of the state that holds after whenever it holds before. *)
Definition keeps (I : world → Prop) : relation world := λ w w', I w → I w'.

(** No key leaves the game-ID cache. *)
Definition cache_keys_kept : relation world :=
  λ w w', dom (game_ids_cache w) ⊆ dom (game_ids_cache w').

(** The value is a string. *)
Definition is_str (v : pyval) : bool :=
  match v with
  | PyStr _ => true
  | _ => false
  end.

(** The fields of a bet record on which [map_bet_info] calls a [str]
    method are strings; those read through [or ""] may also be falsy. *)
Definition record_typed (r : bet_record) : bool :=
  is_str (default (PyStr "Basketball") (br_sport r)) &&
  is_str (default (PyStr "NBA") (br_league r)) &&
  is_str (or_empty (br_visitor r)) &&
  is_str (or_empty (br_home r)) &&
  is_str (or_empty (br_the_bet r)).

End Invariants.
Export Invariants.

(* ===================================================================== *)
(** * More scenarios                                                      *)
(* ===================================================================== *)

Module Cases.

(** A provider that answers every request with the given status. *)
Definition failing_env (status_code : Z) : env :=
  {| tables := no_teams;
     sports_file := Some [ {| sp_name := "Basketball"; sp_id := PyInt 4 |} ];
     league_file := λ _, None;
     provider := λ _ _, Response status_code "Too Many Requests" empty_fixtures;
     telegram_ok := λ _, true;
     set_order := remove_dups |}.

(** A settled response whose only event has the identifier 0. *)
Definition settled_with_event_0 : api_json :=
  settled_of (Some 7) [ {| se_id := 0; se_periods := [final_period] |} ].

(** A bet without team names whose text starts with a number. *)
Definition nameless_bet : bet_info :=
  {| bi_id := PyInt 7; bi_sport := "Basketball"; bi_league := "NBA";
     bi_original_league := "NBA"; bi_visitor := ""; bi_home := "";
     bi_bet_type := PyNone; bi_the_bet := "-4.5 lakers"; bi_line := PyNone;
     bi_period := PyStr "" |}.

(** A state in which [bet_1] has been notified. *)
Definition bet_1_done : world :=
  set_processed_bets {[ processed_key bet_1 ]} fresh.

(** A sports file that lists Basketball twice. *)
Definition twice_listed_env : env :=
  {| tables := no_teams;
     sports_file :=
       Some [ {| sp_name := "Hockey"; sp_id := PyInt 19 |};
              {| sp_name := "Basketball"; sp_id := PyInt 4 |};
              {| sp_name := "Basketball"; sp_id := PyInt 44 |} ];
     league_file := λ _, None;
     provider := λ _ _, Response 200 "OK" nba_fixtures;
     telegram_ok := λ _, true;
     set_order := remove_dups |}.

End Cases.
Import Cases.

(* ===================================================================== *)
(** * Strings                                                             *)
(* ===================================================================== *)

Lemma truthy_str s : truthy (PyStr s) = false → s = "".
Proof.
  simpl. destruct (String.eqb_spec s "") as [->|]; [done|discriminate].
Qed.

Lemma remove_spaces_app a b :
  remove_spaces (a +:+ b) = remove_spaces a +:+ remove_spaces b.
Proof.
  induction a as [|c a IH]; simpl; [done|].
  rewrite IH. by destruct (Ascii.eqb c " ").
Qed.

(** The key read by the lookup loop is the key written by the fixture loop. *)
Lemma cache_key_api_key a b : cache_key a b = api_key a b.
Proof. unfold cache_key, api_key. by rewrite !remove_spaces_app. Qed.

Lemma lower_app a b : lower (a +:+ b) = lower a +:+ lower b.
Proof. induction a as [|x a IH]; simpl; [done|]. by rewrite IH. Qed.

Lemma occurs_app c a b : occurs c (a +:+ b) = occurs c a || occurs c b.
Proof. induction a as [|x a IH]; simpl; [done|]. by rewrite IH, orb_assoc. Qed.

Lemma startswith_occurs c hay needle :
  startswith hay needle = true → occurs c needle = true → occurs c hay = true.
Proof.
  revert hay. induction needle as [|a needle IH]; intros hay; simpl; [discriminate|].
  destruct hay as [|b hay]; [discriminate|]. simpl.
  intros [Hab Hrest]%andb_true_iff [Hc|Hc]%orb_true_iff.
  - apply Ascii.eqb_eq in Hab as ->. by rewrite Hc.
  - rewrite (IH _ Hrest Hc). apply orb_true_r.
Qed.

(** A code point of the needle is a code point of the haystack. *)
Lemma contains_occurs c needle hay :
  contains needle hay = true → occurs c needle = true → occurs c hay = true.
Proof.
  intros Hin Hc. induction hay as [|b hay IH].
  - simpl in Hin. rewrite orb_false_r in Hin. eauto using startswith_occurs.
  - simpl in Hin. apply orb_true_iff in Hin as [Hs|Hrest].
    + eauto using startswith_occurs.
    + simpl. rewrite (IH Hrest). apply orb_true_r.
Qed.

Lemma pretty_N_go_no_f x s :
  occurs "f" (lower s) = false → occurs "f" (lower (pretty_N_go x s)) = false.
Proof.
  revert s. induction (N.lt_wf_0 x) as [x _ IH]; intros s Hs.
  assert (x = 0 ∨ 0 < x)%N as [->|Hx] by lia.
  - by rewrite pretty_N_go_0.
  - rewrite pretty_N_go_step by done. apply IH.
    { by apply N.div_lt. }
    simpl. rewrite Hs. unfold pretty_N_char. by repeat case_match.
Qed.

(** The decimal form of an integer has no letter f. *)
Lemma pretty_Z_no_f (z : Z) : occurs "f" (lower (pretty z)) = false.
Proof.
  destruct z as [|p|p]; unfold pretty, pretty_Z; [done| |].
  - unfold pretty, pretty_positive, pretty, pretty_N.
    case_decide; [done|]. by apply pretty_N_go_no_f.
  - rewrite lower_app, occurs_app. simpl.
    unfold pretty, pretty_positive, pretty, pretty_N.
    case_decide; [done|]. by apply pretty_N_go_no_f.
Qed.

Lemma first_event_In {L Ev} (events : L → list Ev) p leagues event :
  first_event events p leagues = Some event →
  ∃ league, In league leagues ∧ In event (events league) ∧ p event = true.
Proof.
  induction leagues as [|league rest IH]; simpl; [discriminate|].
  destruct (List.find p (events league)) eqn:Hfind.
  - intros [= ->]. apply find_some in Hfind as [Hin Hp]. exists league. auto.
  - intros Hrest. destruct (IH Hrest) as (l & Hl & He & Hp). exists l. auto.
Qed.

(* ===================================================================== *)
(** * Computations and what they leave alone                              *)
(* ===================================================================== *)

Lemma bind_run {A B} (m : M A) (k : A → M B) w :
  bind m k w =
  match m w with
  | (Ret a, w1) => k a w1
  | (Raise e, w1) => (Raise e, w1)
  end.
Proof. reflexivity. Qed.

Lemma bind_get_world {B} (k : world → M B) w : bind get_world k w = k w w.
Proof. reflexivity. Qed.

Lemma bind_modify {B} (g : world → world) (k : unit → M B) w :
  bind (modify g) k w = k tt (g w).
Proof. reflexivity. Qed.

Section Respects.
Context (R : relation world) `{!PreOrder R}.

Lemma respects_ret {A} (a : A) : respects R (ret a).
Proof. intros w. reflexivity. Qed.

Lemma respects_raise {A} (e : exn) : respects R (raise (A:=A) e).
Proof. intros w. reflexivity. Qed.

Lemma respects_lift {A} (o : outcome A) : respects R (lift o).
Proof. intros w. reflexivity. Qed.

Lemma respects_get_world : respects R get_world.
Proof. intros w. reflexivity. Qed.

Lemma respects_modify (g : world → world) :
  (∀ w, R w (g w)) → respects R (modify g).
Proof. intros Hg w. apply Hg. Qed.

Lemma respects_bind {A B} (m : M A) (k : A → M B) :
  respects R m → (∀ a, respects R (k a)) → respects R (bind m k).
Proof.
  intros Hm Hk w. unfold bind.
  specialize (Hm w). destruct (m w) as [[a|e] w1]; simpl in *.
  - etrans; [exact Hm|apply Hk].
  - exact Hm.
Qed.

End Respects.

(** [respects_bind] with its class argument resolved. *)
Ltac respects_seq := apply respects_bind; [apply _| |intros ?].

(** What a write to the state owes the relation. *)
Ltac respects_frame :=
  first [ apply http_frame | apply cursor_frame | apply cursor_file_frame
        | apply cache_frame | apply cache_file_frame | apply telegram_frame
        | apply guard_frame | apply sleep_frame ].

Create HintDb respects.

(** One step through the syntax of a computation. *)
Ltac respects_step :=
  lazymatch goal with
  | |- respects _ (bind _ _) => respects_seq
  | |- respects _ (ret _) => apply respects_ret; apply _
  | |- respects _ (raise _) => apply respects_raise; apply _
  | |- respects _ (lift _) => apply respects_lift; apply _
  | |- respects _ get_world => apply respects_get_world; apply _
  | |- respects _ (modify _) => apply respects_modify; intros ?; respects_frame
  | |- respects _ (match ?x with _ => _ end) => destruct x eqn:?
  | |- respects _ _ => solve [eauto with respects]
  end.

Section RespectsServices.
Context (R : relation world) `{!PreOrder R} (E : env).

Lemma respects_requests_get `{!HttpFrame R} url : respects R (requests_get E url).
Proof. intros w. apply http_frame. Qed.
Hint Resolve respects_requests_get : respects.

Lemma respects_search_in_settled `{!HttpFrame R} `{!CursorFrame R}
    sport_id league_ids game_id :
  respects R (search_in_settled E sport_id league_ids game_id).
Proof. unfold search_in_settled. repeat respects_step. Qed.
Hint Resolve respects_search_in_settled : respects.

Lemma respects_get_fixtures `{!HttpFrame R} sport_id league_ids :
  respects R (get_fixtures E sport_id league_ids).
Proof. unfold get_fixtures. repeat respects_step. Qed.
Hint Resolve respects_get_fixtures : respects.

Lemma respects_get_settled_fixtures `{!HttpFrame R} sport_id league_ids :
  respects R (get_settled_fixtures E sport_id league_ids).
Proof. unfold get_settled_fixtures. repeat respects_step. Qed.
Hint Resolve respects_get_settled_fixtures : respects.

Lemma respects_search_cached_ids `{!HttpFrame R} `{!CursorFrame R}
    sport_id league_ids fixtures_data ids :
  respects R (search_cached_ids E sport_id league_ids fixtures_data ids).
Proof.
  induction ids as [|gid rest IH]; simpl; repeat respects_step.
Qed.
Hint Resolve respects_search_cached_ids : respects.

Lemma respects_get_game_data `{!HttpFrame R} `{!CursorFrame R} `{!CacheFrame R} bet :
  respects R (get_game_data E bet).
Proof. unfold get_game_data. repeat respects_step. Qed.
Hint Resolve respects_get_game_data : respects.

Lemma respects_send_telegram_message `{!TelegramFrame R} data :
  respects R (send_telegram_message E data).
Proof. intros w. apply telegram_frame. Qed.
Hint Resolve respects_send_telegram_message : respects.

Lemma respects_process_bet `{!HttpFrame R} `{!CursorFrame R} `{!CacheFrame R}
    `{!TelegramFrame R} `{!GuardFrame R} bet :
  respects R (process_bet E bet).
Proof. unfold process_bet. repeat respects_step. Qed.
Hint Resolve respects_process_bet : respects.

Lemma respects_process_records `{!HttpFrame R} `{!CursorFrame R} `{!CacheFrame R}
    `{!TelegramFrame R} `{!GuardFrame R} records :
  respects R (process_records E records).
Proof. induction records as [|r rest IH]; simpl; repeat respects_step. Qed.
Hint Resolve respects_process_records : respects.

Lemma respects_save_caches `{!CursorFrame R} `{!CacheFrame R} :
  respects R save_caches.
Proof. unfold save_caches. repeat respects_step. Qed.
Hint Resolve respects_save_caches : respects.

Lemma respects_cycle_body `{!HttpFrame R} `{!CursorFrame R} `{!CacheFrame R}
    `{!TelegramFrame R} `{!GuardFrame R} bets_data :
  respects R (cycle_body E bets_data).
Proof. unfold cycle_body. repeat respects_step. Qed.

End RespectsServices.

Global Instance same_preorder {X} (f : world → X) : PreOrder (same f).
Proof.
  split; [intros w; reflexivity|].
  intros w1 w2 w3 H12 H23. unfold same in *. congruence.
Qed.

Global Instance cursors_kept_preorder : PreOrder cursors_kept.
Proof. split; unfold cursors_kept; [intros w|intros w1 w2 w3]; set_solver. Qed.

Global Instance guard_grows_preorder : PreOrder guard_grows.
Proof. split; unfold guard_grows; [intros w|intros w1 w2 w3]; set_solver. Qed.

Global Instance same_telegram_http : HttpFrame (same telegram_log).
Proof. by intros l w. Qed.
Global Instance same_telegram_cursor : CursorFrame (same telegram_log).
Proof. by split. Qed.
Global Instance same_telegram_cache : CacheFrame (same telegram_log).
Proof. by split. Qed.

Global Instance same_guard_http : HttpFrame (same processed_bets).
Proof. by intros l w. Qed.
Global Instance same_guard_cursor : CursorFrame (same processed_bets).
Proof. by split. Qed.
Global Instance same_guard_cache : CacheFrame (same processed_bets).
Proof. by split. Qed.

Global Instance same_cache_http : HttpFrame (same game_ids_cache).
Proof. by intros l w. Qed.
Global Instance same_cache_cursor : CursorFrame (same game_ids_cache).
Proof. by split. Qed.

Global Instance cursors_kept_http : HttpFrame cursors_kept.
Proof. intros l w. by unfold cursors_kept. Qed.
Global Instance cursors_kept_cursor : CursorFrame cursors_kept.
Proof.
  split; unfold cursors_kept; intros; simpl; [|done].
  rewrite dom_insert_L. set_solver.
Qed.
Global Instance cursors_kept_cache : CacheFrame cursors_kept.
Proof. split; intros; by unfold cursors_kept. Qed.
Global Instance cursors_kept_telegram : TelegramFrame cursors_kept.
Proof. intros l w. by unfold cursors_kept. Qed.
Global Instance cursors_kept_guard : GuardFrame cursors_kept.
Proof. intros l w. by unfold cursors_kept. Qed.
Global Instance cursors_kept_sleep : SleepFrame cursors_kept.
Proof. intros l w. by unfold cursors_kept. Qed.

Global Instance guard_grows_http : HttpFrame guard_grows.
Proof. intros l w. by unfold guard_grows. Qed.
Global Instance guard_grows_cursor : CursorFrame guard_grows.
Proof. split; intros; by unfold guard_grows. Qed.
Global Instance guard_grows_cache : CacheFrame guard_grows.
Proof. split; intros; by unfold guard_grows. Qed.
Global Instance guard_grows_telegram : TelegramFrame guard_grows.
Proof. intros l w. by unfold guard_grows. Qed.
Global Instance guard_grows_guard : GuardFrame guard_grows.
Proof. intros k w. unfold guard_grows. simpl. set_solver. Qed.
Global Instance guard_grows_sleep : SleepFrame guard_grows.
Proof. intros l w. by unfold guard_grows. Qed.

(** What [get_game_data] leaves of the state it started from: it sends
    nothing and marks no bet. *)
Lemma get_game_data_frame E bet w :
  telegram_log (get_game_data E bet w).2 = telegram_log w ∧
  processed_bets (get_game_data E bet w).2 = processed_bets w.
Proof.
  split.
  - exact (respects_get_game_data (same telegram_log) E bet w).
  - exact (respects_get_game_data (same processed_bets) E bet w).
Qed.

(** The set of processed bets only grows during a cycle. *)
Lemma cycle_body_guard_grows E bets_data w :
  processed_bets w ⊆ processed_bets (cycle_body E bets_data w).2.
Proof. exact (respects_cycle_body guard_grows E bets_data w). Qed.

(* ===================================================================== *)
(** * Team names                                                          *)
(* ===================================================================== *)

Lemma get_team_dictionary_str T league :
  ∃ dictionary, get_team_dictionary T (PyStr league) = Ret dictionary.
Proof. eexists. reflexivity. Qed.



Example lakers_in_any_case :
  get_normalized_team demo_teams (PyStr "  LAKERS ") (PyStr " NBA")
  = Ret "Los Angeles Lakers".
Proof. reflexivity. Qed.

(** A label that selects no table leaves every name as it is. *)
Lemma get_normalized_team_unrecognized T team_name league :
  get_team_dictionary T (PyStr league) = Ret ∅ →
  get_normalized_team T (PyStr team_name) (PyStr league) = Ret team_name.
Proof.
  intros Hd. unfold get_normalized_team. rewrite Hd.
  destruct (truthy (PyStr team_name)) eqn:Ht; simpl.
  - by rewrite lookup_empty.
  - by apply truthy_str in Ht as ->.
Qed.

(** A label that is not a string makes the lookup raise. *)
Example get_normalized_team_none_league :
  get_normalized_team demo_teams (PyStr "lakers") PyNone = Raise AttributeError.
Proof. reflexivity. Qed.

(* ===================================================================== *)
(** * The provider service                                                *)
(* ===================================================================== *)

(** C10. [get_fixtures] called with a [sport_id] that is falsy or not above
    zero, or with an empty [league_ids], returns an error dictionary and
    leaves the state as it was: no request reaches the provider.  The
    [sport_id] is [None], an integer or the empty string, as the sports file
    gives it. *)
Theorem get_fixtures_rejects_without_request (E : env) (sport_id : pyval)
    (league_ids : string) (w : world)
    (Htype : ∀ s, sport_id = PyStr s → s = "")
    (Hbad : truthy sport_id = false ∨ (∃ z, sport_id = PyInt z ∧ z ≤ 0) ∨
            league_ids = "") :
  ∃ msg, get_fixtures E sport_id league_ids w = (Ret (AError msg), w) ∧
         http_log (get_fixtures E sport_id league_ids w).2 = http_log w.
Proof.
  assert (∃ msg, get_fixtures E sport_id league_ids w = (Ret (AError msg), w))
    as [msg Hmsg].
  { unfold get_fixtures, bind, ret.
    destruct sport_id as [|z|s]; simpl.
    - eexists; reflexivity.
    - destruct Hbad as [Hf | [(z1 & Hz1 & Hz) | ->] ]; [| injection Hz1 as <- |].
      + simpl in Hf. apply negb_false_iff in Hf. rewrite Hf. simpl.
        eexists; reflexivity.
      + assert ((z <=? 0) = true) as -> by lia. rewrite orb_true_r.
        eexists; reflexivity.
      + destruct ((z =? 0) || (z <=? 0)); simpl; eexists; reflexivity.
    - rewrite (Htype s eq_refl). simpl. eexists; reflexivity. }
  exists msg. by rewrite Hmsg.
Qed.

Lemma get_fixtures_rejects_without_request_witness :
  ∃ msg, get_fixtures settled_env (PyInt 0) "493" fresh = (Ret (AError msg), fresh) ∧
         http_log (get_fixtures settled_env (PyInt 0) "493" fresh).2 = http_log fresh.
Proof.
  apply get_fixtures_rejects_without_request.
  - intros s Hs. discriminate Hs.
  - left. reflexivity.
Defined.

(** With valid arguments the request is issued. *)
Example get_fixtures_requests :
  http_log (get_fixtures settled_env (PyInt 4) "493" fresh).2 =
  ["https://api.ps3838.com/v3/fixtures?sportId=4&leagueIds=493&isLive=1&since=0"].
Proof. reflexivity. Qed.

Lemma get_fixtures_data E sport_id league_ids w data w1 :
  get_fixtures E sport_id league_ids w = (Ret (AData data), w1) →
  ∃ n url status_code reason, provider E n url = Response status_code reason data.
Proof.
  unfold get_fixtures. rewrite bind_run.
  destruct sport_id as [|z|s]; simpl.
  - discriminate.
  - destruct ((z =? 0) || (z <=? 0)); [discriminate|].
    destruct (String.eqb league_ids ""); [discriminate|].
    rewrite bind_run. unfold requests_get.
    destruct (provider E _ _) as [msg|status_code reason json] eqn:Hp; [discriminate|].
    destruct (negb (status_code =? 200)); [discriminate|].
    intros [= <- <-]. eauto.
  - destruct (String.eqb s ""); simpl; [discriminate|discriminate].
Qed.

(** An error of [search_in_settled] for an identifier is a connection error
    or the text [not_in_settled]. *)
Lemma search_in_settled_error E sport_id league_ids gid w res w1 :
  search_in_settled E sport_id league_ids (Some gid) w = (Ret (AError res), w1) →
  (∃ msg, res = "Error de conexi" +:+ chr 243 +:+ "n: " +:+ msg) ∨
  res = not_in_settled gid.
Proof.
  unfold search_in_settled. rewrite bind_run. unfold requests_get.
  destruct (provider E _ _) as [msg|status_code reason data].
  - intros [= <- _]. left. eauto.
  - destruct (raises_for_status status_code).
    + intros [= <- _]. left. eauto.
    + rewrite bind_run.
      destruct (j_last data); simpl;
        (destruct (gid =? 0); [discriminate|]);
        (destruct (first_event _ _ _); [discriminate|]);
        intros [= <- _]; by right.
Qed.

(** An event found by its identifier is returned with whatever periods it
    has. *)
Lemma search_in_settled_event E sport_id league_ids gid w status_code reason
    data event :
  provider E (length (http_log w)) (settled_url sport_id league_ids)
    = Response status_code reason data →
  raises_for_status status_code = false →
  (gid =? 0) = false →
  first_event sl_events (λ ev, se_id ev =? gid) (j_leagues data) = Some event →
  (search_in_settled E sport_id league_ids (Some gid) w).1
    = Ret (AEvent (Some (se_id event)) (se_periods event)).
Proof.
  intros Hp Hst Hgid Hev.
  unfold search_in_settled. rewrite bind_run. unfold requests_get.
  unfold settled_url in Hp. rewrite Hp, Hst, bind_run.
  destruct (j_last data); simpl; by rewrite Hgid, Hev.
Qed.

(** C4. What [search_in_settled] does to the stored cursors: when the
    request succeeds and the response carries [last], the cursor of the
    sport becomes that value, whatever was stored; otherwise the store is
    untouched; and in both cases no sport loses its cursor. *)
Theorem search_in_settled_stores_last (E : env) (sport_id : pyval)
    (league_ids : string) (game_id : option Z) (w : world) :
  let cache' :=
    last_values_cache (search_in_settled E sport_id league_ids game_id w).2 in
  cache' =
    match provider E (length (http_log w)) (settled_url sport_id league_ids) with
    | RequestException _ => last_values_cache w
    | Response status_code _ data =>
        if raises_for_status status_code then last_values_cache w
        else match j_last data with
             | Some last => <[format sport_id := last]> (last_values_cache w)
             | None => last_values_cache w
             end
    end ∧
  dom (last_values_cache w) ⊆ dom cache'.
Proof.
  split;
    [|exact (respects_search_in_settled cursors_kept E sport_id league_ids game_id w)].
  unfold search_in_settled. rewrite bind_run. unfold requests_get, settled_url.
  destruct (provider E _ _) as [msg|status_code reason data]; [reflexivity|].
  destruct (raises_for_status status_code); [reflexivity|].
  rewrite bind_run.
  destruct (j_last data) as [last|]; simpl;
    destruct (no_game_id game_id); try reflexivity;
    destruct (first_event _ _ _); reflexivity.
Qed.

(** C4, the claim as stated fails: a cycle that polls one bet while the
    provider answers with the cursor 50 takes the stored cursor of sport 4
    from 100 back to 50. *)
Lemma cursor_goes_back :
  let w' := (iteration earlier_cursor_env (Poll (BetsList [BetDict bet_1_record])) 0
               cursor_at_100).2 in
  last_values_cache cursor_at_100 !! "4" = Some 100 ∧
  last_values_cache w' !! "4" = Some 50 ∧
  ¬ (100 ≤ 50).
Proof. split; [|split]; [vm_compute; reflexivity..|lia]. Qed.

(* ===================================================================== *)
(** * The game-ID cache                                                   *)
(* ===================================================================== *)

(** [get_game_data] leaves the cache as it found it, or writes the three
    keys of one event that the provider offered. *)
Lemma get_game_data_cache E bet w :
  game_ids_cache (get_game_data E bet w).2 = game_ids_cache w ∨
  ∃ event, offered E event ∧
    game_ids_cache (get_game_data E bet w).2 = stored bet event (game_ids_cache w).
Proof.
  unfold get_game_data. rewrite bind_run.
  set (names := List.filter _ _).
  set (pick := match names with [] => _ | _ => _ end).
  assert (∃ o, pick w = (o, w)) as [o ->].
  { subst pick. destruct names; eexists; reflexivity. }
  destruct o as [team_names|e]; [|by left].
  destruct team_names as [|t ts]; [by left|].
  rewrite bind_get_world, bind_run.
  pose proof (respects_get_fixtures (same game_ids_cache) E
                (get_sport_id E (bi_sport bet))
                (let ids := get_league_ids E (bi_sport bet) (bi_league bet) in
                 if String.eqb ids "" then "493" else ids) w) as Hfix.
  unfold same in Hfix.
  destruct (get_fixtures E _ _ w) as [[fixtures_answer|e] w1] eqn:Hget;
    simpl in Hfix; [|by left].
  rewrite bind_run.
  match goal with
  | |- context [search_cached_ids E ?s ?l ?f ?ids w1] =>
      pose proof (respects_search_cached_ids (same game_ids_cache) E s l f ids w1)
        as Hids;
      destruct (search_cached_ids E s l f ids w1) as [[cached|e] w2]
  end; unfold same in Hids; simpl in Hids; [|left; simpl; congruence].
  destruct cached as [enriched|]; [left; simpl; congruence|].
  destruct (first_event fl_events _ _) as [event|] eqn:Hevent;
    [|left; simpl; congruence].
  right. exists event. split.
  - apply first_event_In in Hevent as (league & Hl & He & _).
    destruct fixtures_answer as [msg|data|id periods]; simpl in Hl; try done.
    apply get_fixtures_data in Hget as (n & url & st & rs & Hp).
    exists n, url, st, rs, data, league. auto.
  - rewrite !bind_modify, bind_run.
    match goal with
    | |- context [search_in_settled E ?s ?l ?g ?w3] =>
        pose proof (respects_search_in_settled (same game_ids_cache) E s l g w3)
          as Hset;
        destruct (search_in_settled E s l g w3) as [[settled_result0|e] w4]
    end; unfold same in Hset; simpl in Hset |- *;
    rewrite Hset; unfold stored; congruence.
Qed.

Lemma stored_lookup bet event cache :
  stored bet event cache !! cache_key (lower (fe_away event)) (lower (fe_home event))
    = Some (fe_id event) ∧
  stored bet event cache !! cache_key (lower (fe_home event)) (lower (fe_away event))
    = Some (fe_id event) ∧
  stored bet event cache !! ("bet_" +:+ format (bi_id bet)) = Some (fe_id event).
Proof.
  unfold stored. rewrite !cache_key_api_key.
  repeat split; rewrite !lookup_insert; repeat case_decide; done.
Qed.

(** Whenever [get_game_data] changes the cache, it has stored the identifier
    of an event that the provider offered, with teams A (away) and B (home),
    and in the resulting cache the key built from (A, B) and the key built
    from (B, A) both map to that identifier. *)
Lemma stored_game_id_found_in_both_orders (E : env) (bet : bet_info) (w : world) :
  let cache' := game_ids_cache (get_game_data E bet w).2 in
  cache' = game_ids_cache w ∨
  ∃ event,
    let A := lower (fe_away event) in
    let B := lower (fe_home event) in
    offered E event ∧
    cache' = stored bet event (game_ids_cache w) ∧
    cache' !! cache_key A B = Some (fe_id event) ∧
    cache' !! cache_key B A = Some (fe_id event).
Proof.
  destruct (get_game_data_cache E bet w) as [Hsame|(event & Hoff & Hst)];
    [by left|right].
  exists event. simpl. rewrite Hst.
  destruct (stored_lookup bet event (game_ids_cache w)) as (H1 & H2 & _).
  auto.
Qed.

(** The lookup loop of a later call finds the identifier under both orders. *)
Lemma cached_pair_ids_stored bet event cache :
  String.eqb (lower (fe_away event)) (lower (fe_home event)) = false →
  cached_pair_ids (stored bet event cache)
    [lower (fe_away event); lower (fe_home event)] = [fe_id event; fe_id event].
Proof.
  intros Hne. unfold cached_pair_ids. simpl.
  destruct (stored_lookup bet event cache) as (-> & -> & _).
  rewrite !String.eqb_refl, Hne.
  rewrite String.eqb_sym in Hne. by rewrite Hne.
Qed.

Lemma league_ids_param_not_empty E bet :
  String.eqb (league_ids_param E bet) "" = false.
Proof.
  unfold league_ids_param.
  destruct (String.eqb (get_league_ids E _ _) "") eqn:Hids; [reflexivity|exact Hids].
Qed.

(** A valid request for fixtures that the provider answers with 200. *)
Lemma get_fixtures_answers E z league_ids w reason data :
  0 < z → String.eqb league_ids "" = false →
  provider E (length (http_log w)) (fixtures_url (PyInt z) league_ids)
    = Response 200 reason data →
  get_fixtures E (PyInt z) league_ids w =
  (Ret (AData data),
   set_http_log (http_log w ++ [fixtures_url (PyInt z) league_ids]) w).
Proof.
  intros Hz Hl Hp. unfold get_fixtures. rewrite bind_run. simpl.
  assert ((z =? 0) || (z <=? 0) = false) as -> by lia.
  rewrite Hl, bind_run. unfold requests_get. unfold fixtures_url in Hp.
  by rewrite Hp.
Qed.

(** C5. The discovery of an identifier: the bet has a team name, the cache
    holds nothing for the bet (neither its key nor a pair of its names), the
    sport has a valid identifier, and the provider answers the request for
    fixtures with a response whose first event that passes the team test is
    [event], with teams A (away) and B (home), lower-cased.  Then
    [get_game_data] writes the cache: the cache afterwards is the one before
    with the identifier of the event stored, the key built from (A, B) and
    the key built from (B, A) both map to that identifier, and the lookup
    loop of a later call on the names A and B reads it under both orders. *)
Theorem discovered_game_id_found_in_both_orders (E : env) (bet : bet_info) (w : world)
    (z : Z) (reason : string) (data : api_json) (event : fixture_event)
    (Hnames : bet_team_names bet ≠ [])
    (Hnew : game_ids_cache w !! ("bet_" +:+ format (bi_id bet)) = None ∧
            cached_pair_ids (game_ids_cache w) (bet_team_names bet) = [])
    (Hset : set_order E [] = [])
    (Hsport : get_sport_id E (bi_sport bet) = PyInt z ∧ 0 < z)
    (Hresp : provider E (length (http_log w))
               (fixtures_url (PyInt z) (league_ids_param E bet))
             = Response 200 reason data)
    (Hevent : first_event fl_events (fixture_matches (bet_team_names bet))
                (j_league data) = Some event) :
  let A := lower (fe_away event) in
  let B := lower (fe_home event) in
  let cache' := game_ids_cache (get_game_data E bet w).2 in
  cache' = stored bet event (game_ids_cache w) ∧
  cache' !! cache_key A B = Some (fe_id event) ∧
  cache' !! cache_key B A = Some (fe_id event) ∧
  (A ≠ B → cached_pair_ids cache' [A; B] = [fe_id event; fe_id event]).
Proof.
  destruct Hnew as [Hbet Hpairs]. destruct Hsport as [Hid Hz].
  assert (game_ids_cache (get_game_data E bet w).2
          = stored bet event (game_ids_cache w)) as Hstored.
  { pose proof (league_ids_param_not_empty E bet) as Hleagues.
    unfold get_game_data, bet_team_names, league_ids_param in *.
    destruct (List.filter _ [bi_visitor bet; bi_home bet]) as [|t ts] eqn:Hn; [done|].
    rewrite bind_run. unfold ret at 1. cbv iota beta.
    rewrite bind_get_world, bind_run, Hid.
    rewrite (get_fixtures_answers E z _ w reason data Hz Hleagues Hresp).
    rewrite Hbet, Hpairs. simpl (option_list None ++ []). rewrite Hset.
    rewrite bind_run. simpl (search_cached_ids _ _ _ _ [] _). cbv iota beta.
    rewrite Hevent. unfold ret at 1. cbv iota beta. rewrite !bind_modify, bind_run.
    match goal with
    | |- context [search_in_settled E ?s ?l ?g ?w3] =>
        pose proof (respects_search_in_settled (same game_ids_cache) E s l g w3)
          as Hsettled;
        destruct (search_in_settled E s l g w3) as [[settled_result|e] w4]
    end; unfold same in Hsettled; simpl in Hsettled |- *; by rewrite Hsettled. }
  simpl. rewrite Hstored.
  destruct (stored_lookup bet event (game_ids_cache w)) as (H1 & H2 & _).
  split; [done|]. split; [done|]. split; [done|].
  intros Hne. apply cached_pair_ids_stored. by apply String.eqb_neq.
Qed.

Lemma discovered_game_id_found_in_both_orders_witness :
  let E := env_of no_teams nba_fixtures (settled_of None []) in
  let A := lower (fe_away lakers_warriors) in
  let B := lower (fe_home lakers_warriors) in
  let cache' := game_ids_cache (get_game_data E bet_1 fresh).2 in
  cache' = stored bet_1 lakers_warriors (game_ids_cache fresh) ∧
  cache' !! cache_key A B = Some (fe_id lakers_warriors) ∧
  cache' !! cache_key B A = Some (fe_id lakers_warriors) ∧
  (A ≠ B → cached_pair_ids cache' [A; B]
           = [fe_id lakers_warriors; fe_id lakers_warriors]).
Proof.
  apply (discovered_game_id_found_in_both_orders
           (env_of no_teams nba_fixtures (settled_of None [])) bet_1 fresh
           4 "OK" nba_fixtures lakers_warriors).
  - discriminate.
  - split; reflexivity.
  - reflexivity.
  - split; [reflexivity|lia].
  - vm_compute. reflexivity.
  - vm_compute. reflexivity.
Defined.

(** The legacy [save_game_id_mappings] is symmetric as well, and also
    writes the pairs of the bet's own names. *)
Example legacy_scenario_cache_keys :
  let ids := Legacy.save_game_id_mappings 501 "los angeles lakers"
               "golden state warriors" ["warriors"; "lakers"] (PyInt 1) ∅ in
  ids !! "warriors_lakers" = Some 501 ∧ ids !! "lakers_warriors" = Some 501 ∧
  ids !! "bet_1" = Some 501 ∧
  ids !! "goldenstatewarriors_losangeleslakers" = Some 501 ∧
  ids !! "losangeleslakers_goldenstatewarriors" = Some 501.
Proof. repeat split; vm_compute; reflexivity. Qed.

(** In the scenario the cache afterwards holds neither [warriors_lakers]
    nor [lakers_warriors]. *)
Lemma scenario_has_no_team_pair_key :
  let E := env_of no_teams nba_fixtures (settled_of None []) in
  let cache' := game_ids_cache (get_game_data E bet_1 fresh).2 in
  map_bet_info E (BetDict bet_1_record) = Some bet_1 ∧
  cache' !! "warriors_lakers" = None ∧
  cache' !! "lakers_warriors" = None.
Proof. repeat split; vm_compute; reflexivity. Qed.

(** In the scenario, with no alias for either name, the fixture loop takes
    event 501 and the cache afterwards holds exactly three keys, all for
    501: the two orders of the provider's team names and [bet_1]. *)
Lemma scenario_cache_keys :
  let E := env_of no_teams nba_fixtures (settled_of None []) in
  let run := get_game_data E bet_1 fresh in
  map_bet_info E (BetDict bet_1_record) = Some bet_1 ∧
  first_event fl_events (fixture_matches ["warriors"; "lakers"])
    (j_league nba_fixtures) = Some lakers_warriors ∧
  map_to_list (game_ids_cache run.2) =
    [("goldenstatewarriors_losangeleslakers", 501); ("bet_1", 501);
     ("losangeleslakers_goldenstatewarriors", 501)] ∧
  game_ids_cache run.2 = stored bet_1 lakers_warriors ∅.
Proof. repeat split; vm_compute; reflexivity. Qed.

(** Whatever the alias tables, the settled results and the bet, the
    fixtures of the scenario never put the key [warriors_lakers] in the
    cache. *)
Lemma scenario_never_writes_team_pair_key (T : teams) (last : option Z)
    (events : list settled_event) (bet : bet_info) :
  let E := env_of T nba_fixtures (settled_of last events) in
  game_ids_cache (get_game_data E bet fresh).2 !! "warriors_lakers" = None.
Proof.
  simpl.
  destruct (get_game_data_cache (env_of T nba_fixtures (settled_of last events))
              bet fresh)
    as [->|(event & Hoff & ->)]; [apply lookup_empty|].
  destruct Hoff as (n & url & st & rs & data & league & Hp & Hl & He).
  simpl in Hp. injection Hp as _ _ <-.
  destruct (contains "/fixtures/settled?" url); simpl in Hl; [done|].
  destruct Hl as [<-|[]]. simpl in He. destruct He as [<-|[]].
  unfold stored. rewrite !lookup_insert_ne; [apply lookup_empty|..];
    vm_compute; discriminate.
Qed.

(** C7. In the scenario the fixture loop takes event 501 and stores it
    under [bet_1] and under the two orders of the provider's names; the keys
    [warriors_lakers] and [lakers_warriors], built from the names of the
    bet, are not written, so the lookup loop, which builds its keys from the
    names of the bet, reads nothing from the cache it has just filled.  The
    legacy [save_game_id_mappings] writes both keys, and on its cache the
    same lookup loop reads 501 under both orders. *)
Theorem scenario_pair_keys_are_not_stored :
  let E := env_of no_teams nba_fixtures (settled_of None []) in
  let cache' := game_ids_cache (get_game_data E bet_1 fresh).2 in
  let legacy := Legacy.save_game_id_mappings 501 "los angeles lakers"
                  "golden state warriors" ["warriors"; "lakers"] (PyInt 1) ∅ in
  map_bet_info E (BetDict bet_1_record) = Some bet_1 ∧
  first_event fl_events (fixture_matches (bet_team_names bet_1))
    (j_league nba_fixtures) = Some lakers_warriors ∧
  cache' = stored bet_1 lakers_warriors ∅ ∧
  cache' !! "bet_1" = Some 501 ∧
  cache' !! "warriors_lakers" = None ∧
  cache' !! "lakers_warriors" = None ∧
  cached_pair_ids cache' (bet_team_names bet_1) = [] ∧
  legacy !! "warriors_lakers" = Some 501 ∧
  legacy !! "lakers_warriors" = Some 501 ∧
  cached_pair_ids legacy (bet_team_names bet_1) = [501; 501].
Proof. repeat split; vm_compute; reflexivity. Qed.

(* ===================================================================== *)
(** * Processing a bet                                                    *)
(* ===================================================================== *)

(** A bet whose key is in the set is skipped: nothing is requested, sent or
    written. *)
Lemma process_bet_skips E bet w :
  processed_key bet ∈ processed_bets w → process_bet E bet w = (Ret tt, w).
Proof.
  intros Hin. unfold process_bet. rewrite bind_get_world.
  by rewrite bool_decide_eq_true_2.
Qed.

(** C9. A bet that is not yet in the set of processed bets and whose game
    data come back without ["error"] is notified once: the log of the sink
    gains exactly the enriched result, the key of the bet enters the set,
    and processing the same bet again, whatever the provider then answers,
    returns at once and leaves the whole state, the log of the sink
    included, as it was. *)
Theorem process_bet_notifies_once (E : env) (bet : bet_info) (w w1 : world)
    (res : result)
    (Hnew : processed_key bet ∉ processed_bets w)
    (Hdata : get_game_data E bet w = (Ret res, w1))
    (Hok : has_error res = false) :
  let w2 := (process_bet E bet w).2 in
  telegram_log w2 = telegram_log w ++ [add_bet_info_to_result res bet] ∧
  processed_key bet ∈ processed_bets w2 ∧
  ∀ E', process_bet E' bet w2 = (Ret tt, w2).
Proof.
  destruct (get_game_data_frame E bet w) as [Htel _].
  rewrite Hdata in Htel. simpl in Htel.
  assert ((process_bet E bet w).2 =
          set_processed_bets ({[ processed_key bet ]} ∪ processed_bets w1)
            (set_telegram_log
               (telegram_log w1 ++ [add_bet_info_to_result res bet]) w1)) as Hrun.
  { unfold process_bet. rewrite bind_get_world.
    rewrite bool_decide_eq_false_2 by done.
    rewrite bind_run, Hdata.
    unfold has_error in Hok.
    destruct (r_body res) eqn:Hbody; [discriminate|reflexivity..]. }
  simpl. rewrite Hrun. simpl. rewrite Htel.
  split; [done|]. split; [set_solver|].
  intros E'. apply process_bet_skips. simpl. set_solver.
Qed.

Lemma process_bet_notifies_once_witness :
  let w2 := (process_bet settled_env bet_1 fresh).2 in
  telegram_log w2 =
    telegram_log fresh ++ [add_bet_info_to_result settled_result bet_1] ∧
  processed_key bet_1 ∈ processed_bets w2 ∧
  ∀ E', process_bet E' bet_1 w2 = (Ret tt, w2).
Proof.
  apply (process_bet_notifies_once settled_env bet_1 fresh
           (get_game_data settled_env bet_1 fresh).2 settled_result).
  - apply not_elem_of_empty.
  - vm_compute. reflexivity.
  - reflexivity.
Defined.

(** Two cycles over the same settled bet send one message. *)
Example two_cycles_one_message :
  let cycle := Poll (BetsList [BetDict bet_1_record]) in
  let final := run settled_env [cycle; cycle] (Running 0) fresh in
  final.1 = Running 0 ∧ length (telegram_log final.2) = 1%nat.
Proof. split; vm_compute; reflexivity. Qed.

(** C1. A settled response holds event 501 with an empty list of periods:
    the bet is notified with that empty list and enters the set of
    processed bets, where the legacy [search_in_settled] answered with an
    error that its caller kept away from the sink. *)
Theorem empty_periods_are_notified_as_resolved :
  let E := env_of no_teams nba_fixtures settled_without_periods in
  let w := (process_bet E bet_1 fresh).2 in
  map r_body (telegram_log w) = [AEvent (Some 501) []] ∧
  processed_key bet_1 ∈ processed_bets w ∧
  Legacy.settled_event_answer 501 {| se_id := 501; se_periods := [] |} =
    AError "Match with ID '501' found in settled but has no periods yet." ∧
  Legacy.should_ignore
    "Match with ID '501' found in settled but has no periods yet." = true.
Proof.
  split; [vm_compute; reflexivity|].
  split; [|split; vm_compute; reflexivity].
  refine (bool_decide_unpack _ _). vm_compute. exact I.
Qed.

(** The text that [search_in_settled] gives for an absent identifier never
    holds the words that [process_bet] looks for. *)
Lemma not_in_settled_is_not_ignored game_id :
  contains "not found in settled yet" (lower (not_in_settled game_id)) = false.
Proof.
  destruct (contains _ _) eqn:Hin; [|done].
  apply (contains_occurs "f") in Hin; [|done].
  unfold not_in_settled in Hin.
  rewrite !lower_app, !occurs_app, pretty_Z_no_f in Hin. discriminate Hin.
Qed.

(** So every bet whose event is not settled yet goes to the sink. *)
Lemma process_bet_sends_not_in_settled E bet w res w1 game_id :
  processed_key bet ∉ processed_bets w →
  get_game_data E bet w = (Ret res, w1) →
  r_body res = AError (not_in_settled game_id) →
  telegram_log (process_bet E bet w).2 = telegram_log w ++ [res].
Proof.
  intros Hnew Hdata Hbody.
  destruct (get_game_data_frame E bet w) as [Htel _].
  rewrite Hdata in Htel. simpl in Htel.
  unfold process_bet. rewrite bind_get_world.
  rewrite bool_decide_eq_false_2 by done.
  rewrite bind_run, Hdata, Hbody, not_in_settled_is_not_ignored.
  simpl. by rewrite Htel.
Qed.

(** C2. Event 501 is in the fixtures and absent from the settled results,
    or no fixture matches the bet: in both runs [process_bet] sends the
    error dictionary to the sink; the bet stays out of the set of processed
    bets, so every later cycle sends it again.  The legacy filter kept its
    own text for the first case away from the sink. *)
Theorem pending_bet_is_sent_to_telegram :
  let not_settled := env_of no_teams nba_fixtures (settled_of (Some 7) []) in
  let no_match := env_of no_teams other_fixtures (settled_of (Some 7) []) in
  map r_body (telegram_log (process_bet not_settled bet_1 fresh).2) =
    [AError "Partido con ID 501 no encontrado en settled."] ∧
  map r_body (telegram_log (process_bet no_match bet_1 fresh).2) =
    [AError ("Partido no encontrado en fixtures ni en la cach" +:+ chr 233 +:+ ".")] ∧
  processed_bets (process_bet not_settled bet_1 fresh).2 = ∅ ∧
  Legacy.should_ignore "Match with ID '501' not found in settled yet." = true.
Proof.
  repeat split; vm_compute; reflexivity.
Qed.

(* ===================================================================== *)
(** * Leagues                                                             *)
(* ===================================================================== *)

(** The legacy league filter rejects a women's league for an NCAA bet. *)
Lemma legacy_league_filter_rejects_women league_info search_league :
  Legacy.in_ncaa_leagues (upper search_league) = true →
  contains "WNCAA" (upper (fl_name league_info)) ||
  contains "WOMEN" (upper (fl_name league_info)) = true →
  Legacy.is_matching_league league_info search_league = false.
Proof.
  intros Hncaa Hw. unfold Legacy.is_matching_league. by rewrite Hncaa, Hw.
Qed.

(** So the events the legacy search looks at for an NCAA bet are all from
    leagues whose names hold neither WNCAA nor WOMEN. *)
Lemma legacy_candidates_exclude_women fixtures_data league event :
  Legacy.in_ncaa_leagues (upper league) = true →
  In event (Legacy.candidate_events fixtures_data league) →
  ∃ league_info, In league_info (j_league fixtures_data) ∧
    In event (fl_events league_info) ∧
    contains "WNCAA" (upper (fl_name league_info)) = false ∧
    contains "WOMEN" (upper (fl_name league_info)) = false.
Proof.
  intros Hncaa Hin. unfold Legacy.candidate_events in Hin.
  apply in_flat_map in Hin as (league_info & Hl & He).
  exists league_info. split; [done|].
  destruct (contains "WNCAA" (upper (fl_name league_info)) ||
            contains "WOMEN" (upper (fl_name league_info))) eqn:Hw.
  - rewrite (legacy_league_filter_rejects_women _ _ Hncaa Hw) in He. destruct He.
  - apply orb_false_iff in Hw as [-> ->].
    destruct (Legacy.is_matching_league league_info league); [done|destruct He].
Qed.

(** C3. A bet tagged NCAA, a fixtures response whose only league is named
    "NCAA Women": [get_game_data] takes the event of that league, stores its
    identifier for the bet and returns its team names, where the legacy
    filter leaves no candidate event. *)
Theorem ncaa_bet_takes_womens_event :
  let E := env_of no_teams womens_fixtures (settled_of None []) in
  let run := get_game_data E ncaa_bet fresh in
  Legacy.in_ncaa_leagues (upper (bi_league ncaa_bet)) = true ∧
  contains "WOMEN" (upper "NCAA Women") = true ∧
  game_ids_cache run.2 !! "bet_3" = Some 900 ∧
  (∃ res, run.1 = Ret res ∧ r_actual_home res = Some "Duke" ∧
          r_actual_away res = Some "North Carolina") ∧
  Legacy.candidate_events womens_fixtures (bi_league ncaa_bet) = [].
Proof.
  split; [reflexivity|]. split; [reflexivity|].
  split; [vm_compute; reflexivity|].
  split; [|vm_compute; reflexivity].
  eexists. split; [vm_compute; reflexivity|]. split; reflexivity.
Qed.

(* ===================================================================== *)
(** * The main loop                                                       *)
(* ===================================================================== *)

Lemma run_exited E inputs code w : run E inputs (Exited code) w = (Exited code, w).
Proof. by destruct inputs. Qed.

(** A turn of the loop never takes a cursor away. *)
Lemma iteration_keeps_cursors E input n w :
  cursors_kept w (iteration E input n w).2.
Proof.
  unfold iteration. destruct input as [bets_data|].
  - pose proof (respects_cycle_body cursors_kept E bets_data w) as Hbody.
    destruct (cycle_body E bets_data w) as [[[]|e] w1]; simpl in Hbody.
    + exact Hbody.
    + destruct (MAX_CONSECUTIVE_ERRORS <=? n + 1); exact Hbody.
  - unfold cursors_kept. done.
Qed.

(** A turn whose body returns puts the count back to 0. *)
Lemma successful_cycle_resets E bets_data n w w1 :
  cycle_body E bets_data w = (Ret tt, w1) →
  (iteration E (Poll bets_data) n w).1 = Running 0.
Proof. intros Hok. unfold iteration. by rewrite Hok. Qed.

(** C8. A turn whose body raises sends nothing more to the sink.  When the
    count of consecutive failures it reaches is below
    [MAX_CONSECUTIVE_ERRORS] the loop goes on with that count after the
    usual pause; when it reaches it, both caches are saved, the process
    pauses 5 seconds and exits with status 1, and no later turn runs. *)
Theorem failing_cycle_counts_then_exits (E : env) (bets_data : bets_json)
    (n : Z) (w w1 : world) (e : exn)
    (Hfail : cycle_body E bets_data w = (Raise e, w1)) :
  let '(st, w') := iteration E (Poll bets_data) n w in
  telegram_log w' = telegram_log w1 ∧
  if MAX_CONSECUTIVE_ERRORS <=? n + 1
  then st = Exited 1 ∧
       sleep_log w' = sleep_log w1 ++ [5] ∧
       game_ids_file w' = Some (game_ids_cache w1) ∧
       settled_last_file w' = Some (last_values_cache w1) ∧
       ∀ rest, run E rest st w' = (st, w')
  else st = Running (n + 1) ∧
       sleep_log w' = sleep_log w1 ++ [MAIN_LOOP_SLEEP].
Proof.
  unfold iteration. rewrite Hfail.
  destruct (MAX_CONSECUTIVE_ERRORS <=? n + 1); simpl.
  - repeat split. intros rest. apply run_exited.
  - repeat split.
Qed.

Lemma failing_cycle_counts_then_exits_witness :
  let E := env_of no_teams nba_fixtures (settled_of None []) in
  let '(st, w') := iteration E (Poll (BetsNumber 5)) 4 fresh in
  telegram_log w' = telegram_log fresh ∧
  if MAX_CONSECUTIVE_ERRORS <=? 4 + 1
  then st = Exited 1 ∧
       sleep_log w' = sleep_log fresh ++ [5] ∧
       game_ids_file w' = Some (game_ids_cache fresh) ∧
       settled_last_file w' = Some (last_values_cache fresh) ∧
       ∀ rest, run E rest st w' = (st, w')
  else st = Running (4 + 1) ∧
       sleep_log w' = sleep_log fresh ++ [MAIN_LOOP_SLEEP].
Proof.
  exact (failing_cycle_counts_then_exits
           (env_of no_teams nba_fixtures (settled_of None []))
           (BetsNumber 5) 4 fresh fresh TypeError eq_refl).
Defined.

(** C8, the claim as stated fails: five turns in a row on a bets file that
    holds a number end the process with status 1; nothing was sent to the
    sink, and the last pause is followed by no turn. *)
Lemma five_failures_exit :
  let E := env_of no_teams nba_fixtures (settled_of None []) in
  let final := run E [broken_bets; broken_bets; broken_bets; broken_bets;
                      broken_bets; Poll (BetsList [BetDict bet_1_record])]
                 (Running 0) fresh in
  final.1 = Exited 1 ∧ telegram_log final.2 = [] ∧
  sleep_log final.2 = [60; 60; 60; 60; 5] ∧ http_log final.2 = [].
Proof. repeat split; vm_compute; reflexivity. Qed.

(** Four failures in a row and then a turn that returns leave the loop
    running, and the count starts again. *)
Example four_failures_then_success :
  let E := env_of no_teams nba_fixtures (settled_of None []) in
  let final := run E [broken_bets; broken_bets; broken_bets; broken_bets;
                      Poll BetsNone; broken_bets] (Running 0) fresh in
  final.1 = Running 1.
Proof. vm_compute. reflexivity. Qed.

(* ===================================================================== *)
(** * services/ps3838_service.py: requests and answers                    *)
(* ===================================================================== *)

Lemma first_event_None {L Ev} (events : L → list Ev) p leagues :
  first_event events p leagues = None →
  ∀ league event, In league leagues → In event (events league) → p event = false.
Proof.
  induction leagues as [|l rest IH]; simpl; [by intros _ ? ? []|].
  destruct (List.find p (events l)) eqn:Hfind; [discriminate|].
  intros Hrest league event [<-|Hin] He.
  - by eapply find_none in Hfind.
  - eauto.
Qed.

Lemma append_assoc (a b c : string) : (a +:+ b) +:+ c = a +:+ (b +:+ c).
Proof.
  induction a as [|x a IH]; [done|].
  change (String x ((a +:+ b) +:+ c) = String x (a +:+ (b +:+ c))).
  by rewrite IH.
Qed.

(** X1. [search_in_settled], called with a [sport_id] that is not [None],
    sends exactly one request, and its URL ends in [since=0]: the cursor
    stored for the sport never reaches the provider. *)
Theorem search_in_settled_requests_since_zero (E : env) (sport_id : pyval)
    (league_ids : string) (game_id : option Z) (w : world)
    (Hsport : is_none sport_id = false) :
  http_log (search_in_settled E sport_id league_ids game_id w).2 =
  http_log w ++
    [SETTLED_API_PATH +:+ "?sportId=" +:+ format sport_id +:+
     "&leagueIds=" +:+ league_ids +:+ "&since=0"].
Proof.
  unfold search_in_settled. rewrite bind_run. unfold requests_get.
  assert (build_api_url SETTLED_API_PATH
            [("sportId", sport_id); ("leagueIds", PyStr league_ids); ("since", PyInt 0)]
          = SETTLED_API_PATH +:+ "?sportId=" +:+ format sport_id +:+
            "&leagueIds=" +:+ league_ids +:+ "&since=0") as Hurl.
  { unfold build_api_url. simpl. rewrite Hsport. simpl.
    rewrite !append_assoc. reflexivity. }
  rewrite Hurl.
  destruct (provider E _ _) as [msg|status_code reason data]; [reflexivity|].
  destruct (raises_for_status status_code); [reflexivity|].
  rewrite bind_run.
  destruct (j_last data) as [last|]; simpl;
    destruct (no_game_id game_id); try reflexivity;
    destruct (first_event _ _ _); reflexivity.
Qed.

Lemma search_in_settled_requests_since_zero_witness :
  http_log (search_in_settled earlier_cursor_env (PyInt 4) "493" (Some 501)
              cursor_at_100).2 =
  http_log cursor_at_100 ++
    [SETTLED_API_PATH +:+ "?sportId=" +:+ format (PyInt 4) +:+
     "&leagueIds=" +:+ "493" +:+ "&since=0"].
Proof.
  apply search_in_settled_requests_since_zero. reflexivity.
Defined.

(** X2. When the request of [search_in_settled] fails, by an exception of
    the transport or by a status that [raise_for_status] rejects, the
    function returns the error dictionary of a connection error and the
    state is the one before with the request logged: no cursor, cache or
    file changes. *)
Theorem search_in_settled_failure_changes_nothing (E : env) (sport_id : pyval)
    (league_ids : string) (game_id : option Z) (w : world)
    (Hfail :
       match provider E (length (http_log w)) (settled_url sport_id league_ids) with
       | RequestException _ => True
       | Response status_code _ _ => raises_for_status status_code = true
       end) :
  ∃ msg,
    search_in_settled E sport_id league_ids game_id w =
    (Ret (AError ("Error de conexi" +:+ chr 243 +:+ "n: " +:+ msg)),
     set_http_log (http_log w ++ [settled_url sport_id league_ids]) w).
Proof.
  unfold search_in_settled. rewrite bind_run. unfold requests_get.
  unfold settled_url in *.
  destruct (provider E _ _) as [msg|status_code reason data].
  - exists msg. reflexivity.
  - rewrite Hfail. eexists. reflexivity.
Qed.

Lemma search_in_settled_failure_changes_nothing_witness :
  ∃ msg,
    search_in_settled (failing_env 429) (PyInt 4) "493" (Some 501) cursor_at_100 =
    (Ret (AError ("Error de conexi" +:+ chr 243 +:+ "n: " +:+ msg)),
     set_http_log (http_log cursor_at_100 ++ [settled_url (PyInt 4) "493"])
       cursor_at_100).
Proof.
  apply search_in_settled_failure_changes_nothing. reflexivity.
Defined.

(** X3. When the request succeeds and [game_id] is [None] or 0, both falsy,
    [search_in_settled] returns the whole response, even if the response
    holds an event whose identifier is 0. *)
Theorem search_in_settled_without_id_returns_all (E : env) (sport_id : pyval)
    (league_ids : string) (game_id : option Z) (w : world) (status_code : Z)
    (reason : string) (data : api_json)
    (Hresp : provider E (length (http_log w)) (settled_url sport_id league_ids)
             = Response status_code reason data)
    (Hstatus : raises_for_status status_code = false)
    (Hid : game_id = None ∨ game_id = Some 0) :
  (search_in_settled E sport_id league_ids game_id w).1 = Ret (AData data).
Proof.
  unfold search_in_settled. rewrite bind_run. unfold requests_get.
  unfold settled_url in Hresp. rewrite Hresp, Hstatus, bind_run.
  assert (no_game_id game_id = true) as Hno by (by destruct Hid as [->| ->]).
  destruct (j_last data); simpl; by rewrite Hno.
Qed.

Lemma search_in_settled_without_id_returns_all_witness :
  (search_in_settled (env_of no_teams nba_fixtures settled_with_event_0)
     (PyInt 4) "493" (Some 0) fresh).1 = Ret (AData settled_with_event_0).
Proof.
  apply (search_in_settled_without_id_returns_all
           (env_of no_teams nba_fixtures settled_with_event_0)
           (PyInt 4) "493" (Some 0) fresh 200 "OK" settled_with_event_0).
  - reflexivity.
  - reflexivity.
  - right. reflexivity.
Defined.

(** X4. When the request succeeds and [game_id] is not 0,
    [search_in_settled] returns an event of the response that has this
    identifier, with its periods, if the response holds one; otherwise no
    event of the response has the identifier and the answer is the error
    that names it. *)
Theorem search_in_settled_finds_iff_present (E : env) (sport_id : pyval)
    (league_ids : string) (gid : Z) (w : world) (status_code : Z)
    (reason : string) (data : api_json)
    (Hresp : provider E (length (http_log w)) (settled_url sport_id league_ids)
             = Response status_code reason data)
    (Hstatus : raises_for_status status_code = false)
    (Hgid : gid ≠ 0) :
  let found := (search_in_settled E sport_id league_ids (Some gid) w).1 in
  (∃ league event,
     In league (j_leagues data) ∧ In event (sl_events league) ∧
     se_id event = gid ∧ found = Ret (AEvent (Some gid) (se_periods event))) ∨
  ((∀ league event,
      In league (j_leagues data) → In event (sl_events league) → se_id event ≠ gid) ∧
   found = Ret (AError (not_in_settled gid))).
Proof.
  simpl. unfold search_in_settled. rewrite bind_run. unfold requests_get.
  unfold settled_url in Hresp. rewrite Hresp, Hstatus, bind_run.
  assert ((gid =? 0) = false) as Hz by lia.
  destruct (first_event sl_events (λ ev, se_id ev =? gid) (j_leagues data))
    as [event|] eqn:Hev.
  - left. pose proof Hev as Hfound.
    apply first_event_In in Hfound as (league & Hl & He & Hp).
    apply Z.eqb_eq in Hp. exists league, event. repeat split; try done.
    destruct (j_last data); simpl; rewrite Hz, Hev, Hp; reflexivity.
  - right. split.
    + intros league event Hl He Heq.
      pose proof (first_event_None _ _ _ Hev league event Hl He) as Hp.
      simpl in Hp. lia.
    + destruct (j_last data); simpl; rewrite Hz, Hev; reflexivity.
Qed.

Lemma search_in_settled_finds_iff_present_witness :
  let data := settled_of (Some 7) [ {| se_id := 501; se_periods := [final_period] |} ] in
  let found := (search_in_settled settled_env (PyInt 4) "493" (Some 501) fresh).1 in
  (∃ league event,
     In league (j_leagues data) ∧ In event (sl_events league) ∧
     se_id event = 501 ∧ found = Ret (AEvent (Some 501) (se_periods event))) ∨
  ((∀ league event,
      In league (j_leagues data) → In event (sl_events league) → se_id event ≠ 501) ∧
   found = Ret (AError (not_in_settled 501))).
Proof.
  apply (search_in_settled_finds_iff_present settled_env (PyInt 4) "493" 501 fresh
           200 "OK").
  - reflexivity.
  - reflexivity.
  - lia.
Defined.

(** X5. [get_fixtures] writes to no cache and to no file: the state after
    the call is the state before, or the state before with one request to
    the fixtures URL added to the log. *)
Theorem get_fixtures_only_requests (E : env) (sport_id : pyval)
    (league_ids : string) (w : world) :
  (get_fixtures E sport_id league_ids w).2 = w ∨
  (get_fixtures E sport_id league_ids w).2 =
    set_http_log (http_log w ++ [fixtures_url sport_id league_ids]) w.
Proof.
  unfold get_fixtures. rewrite bind_run.
  destruct sport_id as [|z|s]; simpl.
  - by left.
  - destruct ((z =? 0) || (z <=? 0)); [by left|].
    destruct (String.eqb league_ids ""); [by left|].
    right. rewrite bind_run. unfold requests_get, fixtures_url.
    destruct (provider E _ _) as [msg|status_code reason data]; [reflexivity|].
    by destruct (negb (status_code =? 200)).
  - destruct (String.eqb s ""); by left.
Qed.

(** X6. If [get_fixtures] returns the data of a response, then [sport_id]
    is an integer above zero, [league_ids] is not empty, and the provider
    answered the request for the fixtures URL with the status 200 and these
    data. *)
Theorem get_fixtures_data_needs_200 (E : env) (sport_id : pyval)
    (league_ids : string) (w : world) (data : api_json)
    (Hdata : (get_fixtures E sport_id league_ids w).1 = Ret (AData data)) :
  (∃ z, sport_id = PyInt z ∧ 0 < z) ∧ league_ids ≠ "" ∧
  ∃ reason,
    provider E (length (http_log w)) (fixtures_url sport_id league_ids)
    = Response 200 reason data.
Proof.
  revert Hdata. unfold get_fixtures. rewrite bind_run.
  destruct sport_id as [|z|s]; simpl.
  - discriminate.
  - destruct ((z =? 0) || (z <=? 0)) eqn:Hz; [discriminate|].
    destruct (String.eqb_spec league_ids ""); [discriminate|].
    rewrite bind_run. unfold requests_get, fixtures_url.
    destruct (provider E _ _) as [msg|status_code reason json]; [discriminate|].
    destruct (status_code =? 200) eqn:Hs; simpl; [|discriminate].
    intros [= <-]. apply Z.eqb_eq in Hs as ->.
    split; [exists z; split; [done|lia]|]. split; [done|]. by exists reason.
  - destruct (String.eqb s ""); simpl; discriminate.
Qed.

Lemma get_fixtures_data_needs_200_witness :
  (∃ z, PyInt 4 = PyInt z ∧ 0 < z) ∧ "493" ≠ "" ∧
  ∃ reason,
    provider settled_env (length (http_log fresh)) (fixtures_url (PyInt 4) "493")
    = Response 200 reason nba_fixtures.
Proof.
  apply (get_fixtures_data_needs_200 settled_env (PyInt 4) "493" fresh nba_fixtures).
  reflexivity.
Defined.

(** X7. [get_settled_fixtures] checks none of its arguments: it always
    returns, after exactly one request to the settled URL with [since=0],
    and changes nothing else. *)
Theorem get_settled_fixtures_requests_once (E : env) (sport_id : pyval)
    (league_ids : string) (w : world) :
  ∃ a, get_settled_fixtures E sport_id league_ids w =
       (Ret a, set_http_log (http_log w ++ [settled_url sport_id league_ids]) w).
Proof.
  unfold get_settled_fixtures. rewrite bind_run. unfold requests_get, settled_url.
  destruct (provider E _ _) as [msg|status_code reason data]; [eexists; reflexivity|].
  destruct (negb (status_code =? 200)); eexists; reflexivity.
Qed.

(* ===================================================================== *)
(** * Team names, sports and bet records                                  *)
(* ===================================================================== *)

Lemma eqb_empty_false s : String.eqb s "" = false → s ≠ "".
Proof. by intros H ->. Qed.

Lemma get_normalized_team_returns T team_name league :
  ∃ normalized, get_normalized_team T (PyStr team_name) (PyStr league) = Ret normalized.
Proof.
  unfold get_normalized_team.
  destruct (get_team_dictionary_str T league) as [d ->].
  destruct (negb (truthy (PyStr team_name))); eexists; reflexivity.
Qed.

(** X8. For a bet text and a league that are strings,
    [extract_team_names_from_bet] never raises.  It returns the empty list
    when the lower-cased, trimmed text does not start with a letter a-z;
    otherwise it returns exactly one name, which is not empty and is the
    leading run of letters or what [get_normalized_team] makes of it. *)
Theorem extract_team_names_one_or_none (T : teams) (the_bet league : string) :
  let extracted := leading_letters (strip (lower the_bet)) in
  if String.eqb extracted ""
  then extract_team_names_from_bet T (PyStr the_bet) (PyStr league) = Ret []
  else ∃ name,
         extract_team_names_from_bet T (PyStr the_bet) (PyStr league) = Ret [name] ∧
         name ≠ "" ∧
         (name = extracted ∨
          get_normalized_team T (PyStr extracted) (PyStr league) = Ret name).
Proof.
  simpl. unfold extract_team_names_from_bet.
  destruct (truthy (PyStr the_bet)) eqn:Ht.
  - destruct (String.eqb (strip (lower the_bet)) "") eqn:Hs.
    + apply String.eqb_eq in Hs. rewrite Hs. reflexivity.
    + destruct (String.eqb (leading_letters (strip (lower the_bet))) "") eqn:Hl;
        [reflexivity|].
      destruct (get_team_dictionary_str T league) as [d Hd].
      unfold get_normalized_team. rewrite Hd. simpl. rewrite Hl. simpl.
      destruct (String.eqb (default _ _) "") eqn:Hn.
      * eexists. split; [reflexivity|]. split; [by apply eqb_empty_false|by left].
      * eexists. split; [reflexivity|]. split; [by apply eqb_empty_false|by right].
  - apply truthy_str in Ht as ->. reflexivity.
Qed.

(** X9. A sport whose name no entry of the sports file carries gets the
    identifier 0 from [get_sport_id], and [get_fixtures] called with it
    answers that the [sport_id] is invalid without a request to the
    provider. *)
Theorem unknown_sport_requests_no_fixtures (E : env) (sport_name league_ids : string)
    (w : world)
    (Hunknown : ∀ sports sport,
       sports_file E = Some sports → In sport sports → sp_name sport ≠ sport_name) :
  get_sport_id E sport_name = PyInt 0 ∧
  get_fixtures E (get_sport_id E sport_name) league_ids w =
    (Ret (AError ("sport_id inv" +:+ chr 225 +:+ "lido")), w).
Proof.
  assert (get_sport_id E sport_name = PyInt 0) as Hid.
  { unfold get_sport_id. destruct (sports_file E) as [sports|] eqn:Hf; [|done].
    destruct (List.find _ sports) as [sport|] eqn:Hfind; [|done].
    apply find_some in Hfind as [Hin Hname]. apply String.eqb_eq in Hname.
    by destruct (Hunknown sports sport eq_refl Hin). }
  split; [done|]. rewrite Hid. reflexivity.
Qed.

Lemma unknown_sport_requests_no_fixtures_witness :
  get_sport_id settled_env "Curling" = PyInt 0 ∧
  get_fixtures settled_env (get_sport_id settled_env "Curling") "493" fresh =
    (Ret (AError ("sport_id inv" +:+ chr 225 +:+ "lido")), fresh).
Proof.
  apply unknown_sport_requests_no_fixtures.
  intros sports sport Hf Hin. vm_compute in Hf. injection Hf as <-.
  destruct Hin as [<-|[]]. discriminate.
Defined.

(** X10. When the sports file lists a sport more than once, [get_sport_id]
    returns the identifier of the first entry that carries the name, and
    the later entries are never read. *)
Theorem get_sport_id_first_entry (E : env) (sport_name : string)
    (before : list sport_entry) (sport : sport_entry) (after : list sport_entry)
    (Hfile : sports_file E = Some (before ++ sport :: after))
    (Hname : sp_name sport = sport_name)
    (Hfirst : ∀ other, In other before → sp_name other ≠ sport_name) :
  get_sport_id E sport_name = sp_id sport.
Proof.
  unfold get_sport_id. rewrite Hfile. clear Hfile.
  assert (List.find (λ sp, String.eqb (sp_name sp) sport_name)
            (before ++ sport :: after) = Some sport) as ->; [|done].
  induction before as [|b before IH]; simpl.
  - by rewrite Hname, String.eqb_refl.
  - destruct (String.eqb_spec (sp_name b) sport_name) as [Heq|_].
    + destruct (Hfirst b (or_introl eq_refl) Heq).
    + apply IH. intros other Hin. apply Hfirst. by right.
Qed.

Lemma get_sport_id_first_entry_witness :
  get_sport_id twice_listed_env "Basketball" = PyInt 4.
Proof.
  apply (get_sport_id_first_entry twice_listed_env "Basketball"
           [ {| sp_name := "Hockey"; sp_id := PyInt 19 |} ]
           {| sp_name := "Basketball"; sp_id := PyInt 4 |}
           [ {| sp_name := "Basketball"; sp_id := PyInt 44 |} ]).
  - reflexivity.
  - reflexivity.
  - intros other [<-|[]]. discriminate.
Defined.

(** X11. [map_bet_info] returns a bet for a dictionary exactly when the
    fields on which it calls a string method are strings: [sport] and
    [league] after their defaults, [visitor], [home] and [the_bet] after
    [or ""].  For any other dictionary the exception is swallowed and the
    result is [None]. *)
Theorem map_bet_info_some_iff_typed (E : env) (r : bet_record) :
  is_Some (map_bet_info E (BetDict r)) ↔ record_typed r = true.
Proof.
  unfold map_bet_info, record_typed.
  destruct (default (PyStr "Basketball") (br_sport r)) as [|z|sport];
    simpl; try (split; [intros [? [=]]|discriminate]).
  destruct (default (PyStr "NBA") (br_league r)) as [|z|league];
    simpl; try (split; [intros [? [=]]|discriminate]).
  destruct (or_empty (br_visitor r)) as [|z|visitor];
    simpl; try (split; [intros [? [=]]|discriminate]).
  destruct (or_empty (br_home r)) as [|z|home];
    simpl; try (split; [intros [? [=]]|discriminate]).
  destruct (or_empty (br_the_bet r)) as [|z|the_bet];
    simpl; try (split; [intros [? [=]]|discriminate]).
  destruct (get_normalized_team_returns (tables E) (lower (strip visitor))
              (strip league)) as [nv ->].
  destruct (get_normalized_team_returns (tables E) (lower (strip home))
              (strip league)) as [nh ->].
  simpl. split; [done|eauto].
Qed.

Lemma add_sport_keeps_keys m sport k :
  is_Some (m !! k) → is_Some (add_sport m sport !! k).
Proof.
  intros Hk. unfold add_sport.
  rewrite !lookup_insert_is_Some'. auto.
Qed.

Lemma fold_add_sport_keeps_keys sports m k :
  is_Some (m !! k) → is_Some (fold_left add_sport sports m !! k).
Proof.
  revert m. induction sports as [|sp sports IH]; intros m Hk; simpl; [done|].
  apply IH. by apply add_sport_keeps_keys.
Qed.

Lemma fold_add_sport_has_names sports m sport :
  In sport sports →
  is_Some (fold_left add_sport sports m !! sp_name sport) ∧
  is_Some (fold_left add_sport sports m !! lower (sp_name sport)).
Proof.
  revert m. induction sports as [|sp sports IH]; intros m; simpl; [done|].
  intros [->|Hin]; [|by apply IH].
  split; apply fold_add_sport_keeps_keys; unfold add_sport;
    rewrite !lookup_insert_is_Some'; auto.
Qed.

(** X12. The mapping that [load_sports_mapping] returns is never empty, and
    it has an entry for every sport of the sports file under the name of
    the sport and under the lower-cased name. *)
Theorem load_sports_mapping_covers (E : env) :
  load_sports_mapping E ≠ ∅ ∧
  ∀ sports sport,
    sports_file E = Some sports → In sport sports →
    is_Some (load_sports_mapping E !! sp_name sport) ∧
    is_Some (load_sports_mapping E !! lower (sp_name sport)).
Proof.
  unfold load_sports_mapping. split.
  - destruct (sports_file E) as [sports|]; [|done].
    case_bool_decide; done.
  - intros sports sport -> Hin.
    pose proof (fold_add_sport_has_names sports ∅ sport Hin) as [H1 H2].
    case_bool_decide as Hempty; [|done].
    rewrite Hempty, lookup_empty in H1. by destruct H1.
Qed.

(* ===================================================================== *)
(** * services/bet_service.py: the search and the notification            *)
(* ===================================================================== *)

Lemma extract_team_names_none T the_bet league :
  leading_letters (strip (lower the_bet)) = "" →
  extract_team_names_from_bet T (PyStr the_bet) (PyStr league) = Ret [].
Proof.
  intros Hl. unfold extract_team_names_from_bet.
  destruct (truthy (PyStr the_bet)) eqn:Ht.
  - destruct (String.eqb (strip (lower the_bet)) ""); [done|]. by rewrite Hl.
  - apply truthy_str in Ht as ->. reflexivity.
Qed.

(** X13. A bet with no visitor and no home whose text does not start with
    a letter gives [get_game_data] no team to search: it returns the error
    that says so and leaves the state as it was, without a request. *)
Theorem get_game_data_without_team_names (E : env) (bet : bet_info) (w : world)
    (Hvisitor : bi_visitor bet = "")
    (Hhome : bi_home bet = "")
    (Hbet : leading_letters (strip (lower (bi_the_bet bet))) = "") :
  get_game_data E bet w =
  (Ret (error_result "No hay equipos para buscar el partido."), w).
Proof.
  unfold get_game_data. rewrite Hvisitor, Hhome. simpl.
  rewrite bind_run. unfold lift.
  by rewrite (extract_team_names_none _ _ _ Hbet).
Qed.

Lemma get_game_data_without_team_names_witness :
  get_game_data settled_env nameless_bet fresh =
  (Ret (error_result "No hay equipos para buscar el partido."), fresh).
Proof.
  apply get_game_data_without_team_names; reflexivity.
Defined.

Lemma startswith_empty hay : startswith hay "" = true.
Proof. by destruct hay. Qed.

Lemma contains_empty hay : contains "" hay = true.
Proof. destruct hay; simpl; by rewrite ?startswith_empty. Qed.

Lemma startswith_refl s : startswith s s = true.
Proof. induction s as [|c s IH]; simpl; [done|]. by rewrite Ascii.eqb_refl, IH. Qed.

Lemma contains_refl s : contains s s = true.
Proof. destruct s; simpl; [done|]. by rewrite Ascii.eqb_refl, startswith_refl. Qed.

(** X14. A fixture whose home or away name is empty passes the team test of
    the fixture loop for every bet that has at least one team name, since
    the empty string is a substring of every name. *)
Theorem nameless_event_matches_any_bet (team_names : list string)
    (event : fixture_event)
    (Hnames : team_names ≠ [])
    (Hempty : fe_home event = "" ∨ fe_away event = "") :
  fixture_matches team_names event = true.
Proof.
  unfold fixture_matches, any_overlap.
  destruct team_names as [|t ts]; [done|]. simpl.
  destruct Hempty as [-> | ->]; simpl; rewrite contains_empty;
    rewrite ?orb_true_r; reflexivity.
Qed.

Lemma nameless_event_matches_any_bet_witness :
  fixture_matches ["lakers"]
    {| fe_id := 9; fe_home := ""; fe_away := "Miami Heat"; fe_rotNum := 1 |} = true.
Proof.
  apply nameless_event_matches_any_bet; [discriminate|]. left. reflexivity.
Defined.

(** X15. A fixture passes the team test of the fixture loop as soon as one
    team name of the bet equals the lower-cased home name or the lower-cased
    away name of the provider. *)
Theorem provider_name_matches (team_names : list string) (event : fixture_event)
    (Hname : In (lower (fe_home event)) team_names ∨
             In (lower (fe_away event)) team_names) :
  fixture_matches team_names event = true.
Proof.
  unfold fixture_matches, any_overlap. apply orb_true_iff.
  destruct Hname as [Hin|Hin]; [left|right];
    apply existsb_exists; eexists; (split; [exact Hin|]);
    by rewrite contains_refl.
Qed.

Lemma provider_name_matches_witness :
  fixture_matches ["los angeles lakers"] lakers_warriors = true.
Proof.
  apply provider_name_matches. left. simpl. left. reflexivity.
Defined.

Lemma process_bet_sends_at_most_one E bet w :
  ∃ sent, telegram_log (process_bet E bet w).2 = telegram_log w ++ sent ∧
          (length sent ≤ 1)%nat.
Proof.
  unfold process_bet. rewrite bind_get_world.
  case_bool_decide as Hin.
  { exists []. split; [by rewrite app_nil_r|simpl; lia]. }
  rewrite bind_run.
  destruct (get_game_data_frame E bet w) as [Htel _].
  destruct (get_game_data E bet w) as [[res|e] w1]; simpl in Htel.
  - destruct (r_body res) as [msg|data|id periods];
      [destruct (contains _ _)|..]; simpl; rewrite Htel;
      first [ by exists []; split; [by rewrite app_nil_r|simpl; lia]
            | by eexists [_]; split; [reflexivity|simpl; lia] ].
  - exists []. simpl. split; [by rewrite app_nil_r|lia].
Qed.

(** X16. One call of [process_bet] does one of three things to the sink and
    to the set of processed bets: it sends nothing and leaves the set as it
    was; it sends one dictionary with ["error"] and leaves the set as it
    was; or it sends one dictionary without ["error"] and adds the key of
    the bet to the set.  A bet is never marked without a message, and never
    marked for an error. *)
Theorem process_bet_effect (E : env) (bet : bet_info) (w : world) :
  let w' := (process_bet E bet w).2 in
  (telegram_log w' = telegram_log w ∧ processed_bets w' = processed_bets w) ∨
  (∃ res, has_error res = true ∧
          telegram_log w' = telegram_log w ++ [res] ∧
          processed_bets w' = processed_bets w) ∨
  (∃ res, has_error res = false ∧
          telegram_log w' = telegram_log w ++ [res] ∧
          processed_bets w' = {[ processed_key bet ]} ∪ processed_bets w).
Proof.
  simpl. unfold process_bet. rewrite bind_get_world.
  case_bool_decide as Hin; [by left|].
  rewrite bind_run.
  destruct (get_game_data_frame E bet w) as [Htel Hguard].
  destruct (get_game_data E bet w) as [[res|e] w1]; simpl in Htel, Hguard;
    [|left; simpl; by rewrite Htel, Hguard].
  destruct (r_body res) as [msg|data|id periods] eqn:Hbody.
  - destruct (contains _ _); simpl; [left; by rewrite Htel, Hguard|].
    right. left. exists res. unfold has_error. rewrite Hbody, Htel, Hguard. done.
  - right. right. exists (add_bet_info_to_result res bet).
    unfold has_error. simpl. rewrite Hbody, Htel, Hguard. done.
  - right. right. exists (add_bet_info_to_result res bet).
    unfold has_error. simpl. rewrite Hbody, Htel, Hguard. done.
Qed.

(* ===================================================================== *)
(** * main.py: what a cycle and a run keep                                *)
(* ===================================================================== *)

(** X17. The loop over the bets file sends at most one message per record
    of the file, whether the loop ends or a bet raises on the way. *)
Theorem process_records_message_bound (E : env) (records : list bet_json) (w : world) :
  ∃ sent,
    telegram_log (process_records E records w).2 = telegram_log w ++ sent ∧
    (length sent ≤ length records)%nat.
Proof.
  revert w. induction records as [|r records IH]; intros w; simpl.
  - exists []. split; [by rewrite app_nil_r|simpl; lia].
  - rewrite bind_run.
    destruct (map_bet_info E r) as [bet|].
    + destruct (process_bet_sends_at_most_one E bet w) as (sent1 & H1 & Hlen1).
      destruct (process_bet E bet w) as [[[]|e] w1]; simpl in H1.
      * destruct (IH w1) as (sent2 & H2 & Hlen2).
        exists (sent1 ++ sent2). rewrite H2, H1, app_assoc, length_app. split; [done|lia].
      * exists sent1. simpl. split; [done|lia].
    + simpl. destruct (IH w) as (sent & H & Hlen). exists sent. split; [done|lia].
Qed.

(** X18. When every record of the bets file that [map_bet_info] accepts is
    already in the set of processed bets, the loop over the file returns
    and leaves the whole state as it was: no request, no message, no
    write. *)
Theorem processed_records_are_skipped (E : env) (records : list bet_json) (w : world)
    (Hdone : ∀ r bet, In r records → map_bet_info E r = Some bet →
                      processed_key bet ∈ processed_bets w) :
  process_records E records w = (Ret tt, w).
Proof.
  induction records as [|r records IH]; simpl; [done|].
  rewrite bind_run.
  destruct (map_bet_info E r) as [bet|] eqn:Hmap.
  - rewrite (process_bet_skips E bet w) by (eapply Hdone; [by left|done]).
    apply IH. intros r' bet' Hin. apply Hdone. by right.
  - simpl. apply IH. intros r' bet' Hin. apply Hdone. by right.
Qed.

Lemma processed_records_are_skipped_witness :
  process_records settled_env [BetDict bet_1_record; BetOther PyNone] bet_1_done =
  (Ret tt, bet_1_done).
Proof.
  apply processed_records_are_skipped.
  intros r bet [<-|[<-|[]]] Hmap; vm_compute in Hmap.
  - injection Hmap as <-. refine (bool_decide_unpack _ _). vm_compute. exact I.
  - discriminate Hmap.
Defined.

Global Instance keeps_preorder (I : world → Prop) : PreOrder (keeps I).
Proof. split; unfold keeps; [intros w|intros w1 w2 w3]; auto. Qed.

Lemma respects_store_then (R : relation world) `{!PreOrder R} {B}
    (f g : world → world) (k : M B) :
  (∀ w, R w (g (f w))) → respects R k →
  respects R (modify f ;;; modify g ;;; k).
Proof.
  intros Hfg Hk w. rewrite !bind_modify.
  etrans; [apply Hfg|apply Hk].
Qed.

(** The services and the loop respect every relation that tolerates the
    request log, the sink, the marking of a bet and the pauses, and that
    [search_in_settled], the write of an event together with its save, and
    [save_caches] respect. *)
Section LoopRespects.
Context (R : relation world) `{!PreOrder R} (E : env).
Context `{!HttpFrame R} `{!TelegramFrame R} `{!GuardFrame R} `{!SleepFrame R}.
Hypothesis Hsettled :
  ∀ sport_id league_ids game_id,
    respects R (search_in_settled E sport_id league_ids game_id).
Hypothesis Hstore :
  ∀ bet event w,
    R w (set_game_ids_file (Some (stored bet event (game_ids_cache w)))
           (set_game_ids_cache (stored bet event (game_ids_cache w)) w)).
Hypothesis Hsave : respects R save_caches.

Hint Resolve respects_requests_get respects_get_fixtures
  respects_get_settled_fixtures respects_send_telegram_message : respects.

Lemma loop_search_cached_ids sport_id league_ids fixtures_data ids :
  respects R (search_cached_ids E sport_id league_ids fixtures_data ids).
Proof. induction ids as [|gid rest IH]; simpl; repeat respects_step. Qed.
Hint Resolve loop_search_cached_ids : respects.

Lemma loop_get_game_data bet : respects R (get_game_data E bet).
Proof.
  unfold get_game_data.
  repeat first
    [ apply respects_store_then;
        [apply _|intros ?; apply (Hstore bet)|]
    | respects_step ].
Qed.
Hint Resolve loop_get_game_data : respects.

Lemma loop_process_bet bet : respects R (process_bet E bet).
Proof. unfold process_bet. repeat respects_step. Qed.
Hint Resolve loop_process_bet : respects.

Lemma loop_process_records records : respects R (process_records E records).
Proof. induction records as [|r rest IH]; simpl; repeat respects_step. Qed.
Hint Resolve loop_process_records : respects.

Lemma loop_cycle_body bets_data : respects R (cycle_body E bets_data).
Proof. unfold cycle_body. repeat respects_step. Qed.

Lemma loop_iteration input n w : R w (iteration E input n w).2.
Proof.
  unfold iteration. destruct input as [bets_data|]; [|apply Hsave].
  pose proof (loop_cycle_body bets_data w) as Hbody.
  destruct (cycle_body E bets_data w) as [[[]|e] w1]; simpl in Hbody.
  - etrans; [exact Hbody|]. apply sleep_frame.
  - destruct (MAX_CONSECUTIVE_ERRORS <=? n + 1); simpl.
    + etrans; [exact Hbody|]. etrans; [apply Hsave|]. apply sleep_frame.
    + etrans; [exact Hbody|]. apply sleep_frame.
Qed.

Lemma loop_run inputs st w : R w (run E inputs st w).2.
Proof.
  revert st w. induction inputs as [|input rest IH]; intros st w; simpl.
  - reflexivity.
  - destruct st as [n|code]; [|reflexivity].
    pose proof (loop_iteration input n w) as Hit.
    destruct (iteration E input n w) as [st' w']. simpl in Hit.
    etrans; [exact Hit|apply IH].
Qed.

End LoopRespects.

Global Instance keeps_durable_http : HttpFrame (keeps durable).
Proof. intros l w Hw. exact Hw. Qed.
Global Instance keeps_durable_telegram : TelegramFrame (keeps durable).
Proof. intros l w Hw. exact Hw. Qed.
Global Instance keeps_durable_guard : GuardFrame (keeps durable).
Proof. intros k w Hw. exact Hw. Qed.
Global Instance keeps_durable_sleep : SleepFrame (keeps durable).
Proof. intros l w Hw. exact Hw. Qed.

Global Instance cache_keys_kept_preorder : PreOrder cache_keys_kept.
Proof. split; unfold cache_keys_kept; [intros w|intros w1 w2 w3]; set_solver. Qed.
Global Instance cache_keys_kept_http : HttpFrame cache_keys_kept.
Proof. intros l w. by unfold cache_keys_kept. Qed.
Global Instance cache_keys_kept_cursor : CursorFrame cache_keys_kept.
Proof. split; intros; by unfold cache_keys_kept. Qed.
Global Instance cache_keys_kept_telegram : TelegramFrame cache_keys_kept.
Proof. intros l w. by unfold cache_keys_kept. Qed.
Global Instance cache_keys_kept_guard : GuardFrame cache_keys_kept.
Proof. intros k w. by unfold cache_keys_kept. Qed.
Global Instance cache_keys_kept_sleep : SleepFrame cache_keys_kept.
Proof. intros l w. by unfold cache_keys_kept. Qed.

Lemma durable_search_in_settled E sport_id league_ids game_id :
  respects (keeps durable) (search_in_settled E sport_id league_ids game_id).
Proof.
  intros w [Hgames Hlast]. unfold search_in_settled. rewrite bind_run.
  unfold requests_get.
  destruct (provider E _ _) as [msg|status_code reason data]; [done|].
  destruct (raises_for_status status_code); [done|].
  rewrite bind_run.
  destruct (j_last data) as [last|]; simpl;
    destruct (no_game_id game_id); try done;
    destruct (first_event _ _ _); done.
Qed.

Lemma durable_store bet event w :
  keeps durable w
    (set_game_ids_file (Some (stored bet event (game_ids_cache w)))
       (set_game_ids_cache (stored bet event (game_ids_cache w)) w)).
Proof. by intros [Hgames Hlast]. Qed.

Lemma durable_save_caches : respects (keeps durable) save_caches.
Proof. by intros w _. Qed.

Lemma cache_keys_store bet event w :
  cache_keys_kept w
    (set_game_ids_file (Some (stored bet event (game_ids_cache w)))
       (set_game_ids_cache (stored bet event (game_ids_cache w)) w)).
Proof.
  unfold cache_keys_kept, stored. simpl. rewrite !dom_insert_L. set_solver.
Qed.

Lemma cache_keys_save_caches : respects cache_keys_kept save_caches.
Proof. intros w. by unfold cache_keys_kept. Qed.

Lemma start_durable disk :
  durable (set_last_values_cache (default ∅ (settled_last_file disk))
             (set_game_ids_cache (default ∅ (game_ids_file disk))
                (set_processed_bets ∅ disk))).
Proof. by split. Qed.

(** Every write to a cache is followed by the save of its file, so the
    files hold what the caches hold after any number of turns. *)
Lemma run_durable E inputs st w : durable w → durable (run E inputs st w).2.
Proof.
  exact (loop_run (keeps durable) E (durable_search_in_settled E) durable_store
           durable_save_caches inputs st w).
Qed.

(** X19. After any number of turns of [main], whatever the bets files, the
    provider and the errors on the way, the file of the game identifiers
    holds what the cache of game identifiers holds, and the file of the
    cursors holds what the cache of cursors holds (a file never written
    stands for an empty cache). *)
Theorem main_keeps_files_in_step (E : env) (disk : world) (inputs : list cycle_input) :
  let w := (main E disk inputs).2 in
  default ∅ (game_ids_file w) = game_ids_cache w ∧
  default ∅ (settled_last_file w) = last_values_cache w.
Proof.
  simpl. unfold main. apply run_durable, start_durable.
Qed.

(** X20. A process started on the files that an earlier process left, at
    whatever turn that one stopped, begins with the game identifiers and
    the cursors the earlier one had, and with an empty set of processed
    bets: what was notified is forgotten by a restart. *)
Theorem restart_recovers_caches (E E' : env) (disk : world)
    (inputs : list cycle_input) :
  let stopped := (main E disk inputs).2 in
  let restarted := (main E' stopped []).2 in
  game_ids_cache restarted = game_ids_cache stopped ∧
  last_values_cache restarted = last_values_cache stopped ∧
  processed_bets restarted = ∅.
Proof.
  simpl.
  assert (durable (main E disk inputs).2) as [Hg Hl].
  { unfold main. apply run_durable, start_durable. }
  revert Hg Hl. generalize ((main E disk inputs).2). intros stopped Hg Hl.
  unfold main. simpl. by rewrite Hg, Hl.
Qed.

(** X21. Over any number of turns of the loop nothing is dropped: every
    processed bet stays in the set, every sport keeps a cursor, and every
    key of the cache of game identifiers stays in the cache. *)
Theorem run_loses_nothing (E : env) (inputs : list cycle_input) (st : status)
    (w : world) :
  let w' := (run E inputs st w).2 in
  processed_bets w ⊆ processed_bets w' ∧
  dom (last_values_cache w) ⊆ dom (last_values_cache w') ∧
  dom (game_ids_cache w) ⊆ dom (game_ids_cache w').
Proof.
  simpl. split; [|split].
  - refine (loop_run guard_grows E _ _ _ inputs st w).
    + intros. exact (respects_search_in_settled guard_grows E _ _ _).
    + intros. by unfold guard_grows.
    + exact (respects_save_caches guard_grows).
  - refine (loop_run cursors_kept E _ _ _ inputs st w).
    + intros. exact (respects_search_in_settled cursors_kept E _ _ _).
    + intros. by unfold cursors_kept.
    + exact (respects_save_caches cursors_kept).
  - refine (loop_run cache_keys_kept E _ cache_keys_store cache_keys_save_caches
              inputs st w).
    intros. exact (respects_search_in_settled cache_keys_kept E _ _ _).
Qed.

(** X22. Started with a count of consecutive errors from 0 to 4, the loop
    keeps the count in that range for as long as it runs: a process that is
    still looping after any number of turns has a count below the
    threshold. *)
Theorem run_count_in_range (E : env) (inputs : list cycle_input) (n k : Z) (w : world)
    (Hn : 0 ≤ n < MAX_CONSECUTIVE_ERRORS)
    (Hrun : (run E inputs (Running n) w).1 = Running k) :
  0 ≤ k < MAX_CONSECUTIVE_ERRORS.
Proof.
  revert n w Hn Hrun. induction inputs as [|input rest IH]; intros n w Hn; simpl.
  - by intros [= <-].
  - destruct (iteration E input n w) as [st' w'] eqn:Hit.
    unfold iteration in Hit. destruct input as [bets_data|].
    + destruct (cycle_body E bets_data w) as [[[]|e] w1].
      * injection Hit as <- <-. apply IH. unfold MAX_CONSECUTIVE_ERRORS. lia.
      * destruct (MAX_CONSECUTIVE_ERRORS <=? n + 1) eqn:Hmax; injection Hit as <- <-.
        -- rewrite run_exited. discriminate.
        -- apply IH. lia.
    + injection Hit as <- <-. rewrite run_exited. discriminate.
Qed.

Lemma run_count_in_range_witness :
  (run settled_env [broken_bets; Poll BetsNone; broken_bets] (Running 3) fresh).1
    = Running 1 ∧
  0 ≤ 1 < MAX_CONSECUTIVE_ERRORS.
Proof.
  split; [vm_compute; reflexivity|].
  apply (run_count_in_range settled_env [broken_bets; Poll BetsNone; broken_bets]
           3 1 fresh).
  - unfold MAX_CONSECUTIVE_ERRORS. lia.
  - vm_compute. reflexivity.
Defined.
